(** * lvm_pvs: reconciliation of LVM physical volumes

    A shallow embedding of [system/lvm_pvs.py] (the Ansible module
    [lvm_pvs]) and the properties of its run.

    The module talks to the host through four channels only:
    [os.path.realpath], [os.path.exists], [module.get_bin_path] and
    [module.run_command].  They are gathered in a record [Host]; every
    function of the module is parameterised by it.  A run is a computation
    in a small monad that threads the log of the commands executed so far
    and stops at the first [exit_json], [fail_json] or uncaught Python
    exception. *)

From Stdlib Require Import ZArith String Ascii List Bool Lia.
From stdpp Require Import base option list gmap strings.

Local Open Scope string_scope.
Local Open Scope list_scope.
Local Open Scope Z_scope.

(** ** Python string primitives used by the module *)

Module PyStr.

(** Whitespace of a Python 2 byte string: space, TAB, LF, VT, FF, CR. *)
Definition isspace (c : ascii) : bool :=
  match nat_of_ascii c with
  | 9%nat | 10%nat | 11%nat | 12%nat | 13%nat | 32%nat => true
  | _ => false
  end.

Definition is_empty (s : string) : bool :=
  match s with EmptyString => true | String _ _ => false end.

(** [s.lstrip()] *)
Fixpoint lstrip (s : string) : string :=
  match s with
  | EmptyString => EmptyString
  | String c s' => if isspace c then lstrip s' else s
  end.

(** [s.rstrip()] *)
Fixpoint rstrip (s : string) : string :=
  match s with
  | EmptyString => EmptyString
  | String c s' =>
      let r := rstrip s' in
      if isspace c && is_empty r then EmptyString else String c r
  end.

(** [s.strip()] *)
Definition strip (s : string) : string := rstrip (lstrip s).

(** [s.split(sep)] for a one-character separator: never the empty list. *)
Fixpoint split (sep : ascii) (s : string) : list string :=
  match s with
  | EmptyString => [EmptyString]
  | String c s' =>
      if Ascii.eqb c sep then EmptyString :: split sep s'
      else match split sep s' with
           | [] => [String c EmptyString]
           | w :: ws => String c w :: ws
           end
  end.

(** [s.split()]: the maximal runs of non-whitespace characters. *)
Fixpoint words_go (cur : string) (s : string) : list string :=
  match s with
  | EmptyString => if is_empty cur then [] else [cur]
  | String c s' =>
      if isspace c
      then (if is_empty cur then words_go EmptyString s'
            else cur :: words_go EmptyString s')
      else words_go (cur +:+ String c EmptyString) s'
  end.

Definition words (s : string) : list string := words_go EmptyString s.

(** [s.splitlines()] of a byte string: lines end at LF, CR or CR LF; the
    terminators are dropped and a final terminator opens no empty line. *)
Fixpoint splitlines_go (cur : string) (s : string) : list string :=
  match s with
  | EmptyString => if is_empty cur then [] else [cur]
  | String c s' =>
      if Ascii.eqb c "010"%char then cur :: splitlines_go EmptyString s'
      else if Ascii.eqb c "013"%char then
        match s' with
        | String c' s'' =>
            if Ascii.eqb c' "010"%char
            then cur :: splitlines_go EmptyString s''
            else cur :: splitlines_go EmptyString s'
        | EmptyString => cur :: splitlines_go EmptyString s'
        end
      else splitlines_go (cur +:+ String c EmptyString) s'
  end.

Definition splitlines (s : string) : list string :=
  splitlines_go EmptyString s.

(** [s.startswith(p)] *)
Definition startswith (p s : string) : bool := String.prefix p s.


End PyStr.

(** ** Data model *)

(** [state=dict(choices=["absent", "present"], default='present')] *)
Inductive state_choice : Set := present | absent.

(** The module parameters after Ansible's argument handling, and the
    check-mode flag of the invocation.  [pvs] is [None] when the option
    was not supplied ([require=True] in the argument spec is not a key
    Ansible knows, so the option is not enforced). *)
Record params : Set := Params {
  pvs : option (list string);
  pv_options : string;
  state : state_choice;
  force : bool;
  check_mode : bool
}.

(** One value of the dictionary built by [parse_pvs]; the sizes are kept
    as the words printed by the listing command. *)
Record pv_info : Set := PvInfo {
  vg_name : string;
  pv_size : string;
  pv_free : string
}.

(** The external commands the module runs. *)
Inductive command : Set :=
| Pvs (pvs_cmd : string)
| Dmsetup (dmsetup_cmd dm_device : string)
| Pvcreate (pvcreate_cmd : string) (options : list string) (dev : string)
| Pvremove (pvremove_cmd dev : string)
| PvremoveForce (pvremove_cmd dev : string).

(** The argument handed to [module.run_command]: one string, or a list of
    words. *)
Inductive cmdline : Set :=
| CmdString (s : string)
| CmdList (l : list string).

Definition render (c : command) : cmdline :=
  match c with
  | Pvs pvs_cmd =>
      CmdString (pvs_cmd +:+
        " --noheadings -o  pv_name,vg_name,pv_size,pv_free --units b --separator ';'")
  | Dmsetup dmsetup_cmd dm_device =>
      CmdString (dmsetup_cmd +:+ " info -C --noheadings -o name " +:+ dm_device)
  | Pvcreate pvcreate_cmd options dev =>
      CmdList ([pvcreate_cmd] ++ options ++ [dev])
  | Pvremove pvremove_cmd dev =>
      CmdString (pvremove_cmd +:+ " " +:+ dev)
  | PvremoveForce pvremove_cmd dev =>
      CmdString (pvremove_cmd +:+ " -ff -y " +:+ dev)
  end.

(** The commands that change the host: [pvcreate] and [pvremove]. *)
Definition is_mutating (c : command) : bool :=
  match c with
  | Pvcreate _ _ _ | Pvremove _ _ | PvremoveForce _ _ => true
  | Pvs _ | Dmsetup _ _ => false
  end.

Definition is_listing (c : command) : bool :=
  match c with Pvs _ => true | _ => false end.

Definition is_dmsetup (c : command) : bool :=
  match c with Dmsetup _ _ => true | _ => false end.

(** [(rc, out, err)] as returned by [module.run_command]. *)
Definition response : Set := Z * string * string.

(** An entry of the command log: the command and what it returned. *)
Definition event : Set := command * response.

(** What the module sees of the machine it runs on.  [run_command] answers
    from the command lines run before and the one run now, so that a
    command may change what later ones return. *)
Record Host : Type := {
  realpath : string -> string;
  path_exists : string -> bool;
  get_bin_path : string -> option string;
  run_command : list cmdline -> cmdline -> response
}.

Inductive exception : Set :=
| UnboundLocalError (name : string)
| IndexError.

(** How a run ends: [module.exit_json(changed=...)],
    [module.fail_json(msg=..., rc=..., err=...)] (the last two only where
    the call gives them), or a Python exception nobody catches. *)
Inductive outcome : Set :=
| Exited (changed : bool)
| Failed (msg : string) (rc : option Z) (err : option string)
| Raised (e : exception).

(** ** The monad of a run *)

Definition Run (A : Type) : Type := list event -> (outcome + A) * list event.

#[global] Instance Run_ret : MRet Run := fun A a log => (inr a, log).

#[global] Instance Run_bind : MBind Run := fun A B k m log =>
  match m log with
  | (inl o, log') => (inl o, log')
  | (inr a, log') => k a log'
  end.

Definition stop {A : Type} (o : outcome) : Run A := fun log => (inl o, log).

Definition exit_json {A : Type} (changed : bool) : Run A := stop (Exited changed).

Definition fail_json {A : Type} (msg : string) (rc : option Z) (err : option string) : Run A :=
  stop (Failed msg rc err).

Definition raise {A : Type} (e : exception) : Run A := stop (Raised e).

(** [for x in l: s = body(x, s)] *)
Fixpoint for_each {A S : Type} (body : A -> S -> Run S) (l : list A) (s : S) : Run S :=
  match l with
  | [] => mret s
  | a :: l' => s' ← body a s; for_each body l' s'
  end.

Definition history (log : list event) : list cmdline := map (fun e => render (fst e)) log.

(** [parts[i]] *)
Definition index (parts : list string) (i : nat) : Run string :=
  match parts !! i with
  | Some x => mret x
  | None => raise IndexError
  end.

(** ** The module *)

Definition dm_prefix : string := "/dev/dm-".
Definition mapper_prefix : string := "/dev/mapper/".

Definition msg_no_pvs : string := "No physical volumes given.".
Definition msg_not_found (test_dev : string) : string :=
  "Device " +:+ test_dev +:+ " not found.".
Definition msg_pvs_failed : string := "Failed executing pvs command.".
Definition msg_dmsetup_failed : string := "Failed executing dmsetup command.".
Definition msg_create_failed (dev : string) : string :=
  "Creating physical volume '" +:+ dev +:+ "' failed".
Definition msg_remove_failed (dev : string) : string :=
  "Failed to remove physical volume " +:+ dev.
Definition msg_refuse (dev vg : string) : string :=
  "Refuse to remove physical volume " +:+ dev +:+
  " being in use by volume group " +:+ vg +:+ " without force=yes".

Section LvmPvs.

Variable h : Host.

(** [module.run_command(c)]: ask the host, log the command. *)
Definition run_cmd (c : command) : Run response := fun log =>
  (inr (run_command h (history log) (render c)),
   log ++ [(c, run_command h (history log) (render c))]).

(** [module.get_bin_path(name, True)]: Ansible fails the run when the
    executable is not found. *)
Definition get_bin_path_required (name : string) : Run string :=
  match get_bin_path h name with
  | Some path => mret path
  | None => fail_json ("Failed to find required executable " +:+ name) None None
  end.

Definition find_mapper_device_name (dm_device : string) : Run string :=
  dmsetup_cmd ← get_bin_path_required "dmsetup";
  '(rc, dm_name, err) ← run_cmd (Dmsetup dmsetup_cmd dm_device);
  if negb (rc =? 0) then fail_json msg_dmsetup_failed (Some rc) (Some err)
  else mret (mapper_prefix +:+ PyStr.rstrip dm_name).

(** The body of the loop of [parse_pvs]. *)
Definition parse_line (line : string) (pvs : gmap string pv_info)
  : Run (gmap string pv_info) :=
  let parts := PyStr.split ";" (PyStr.strip line) in
  name ← index parts 0;
  name ← (if PyStr.startswith dm_prefix name
          then find_mapper_device_name name else mret name);
  vg ← index parts 1;
  size ← index parts 2;
  free ← index parts 3;
  mret (<[name := PvInfo vg size free]> pvs).

Definition parse_pvs (data : string) : Run (gmap string pv_info) :=
  for_each parse_line (PyStr.splitlines data) ∅.

(** Lines 115-122 of [main]: [dev_list] is bound only when [pvs] is a
    non-empty list; then every entry is replaced by its real path. *)
Definition requested_devices (p : params) : Run (list string) :=
  dev_list ← match pvs p with
             | Some (dev :: devs) => mret (Some (dev :: devs))
             | Some [] | None =>
                 match state p with
                 | present => fail_json msg_no_pvs None None
                 | absent => mret None
                 end
             end;
  match dev_list with
  | Some dev_list => mret (map (realpath h) dev_list)
  | None => raise (UnboundLocalError "dev_list")
  end.

(** Lines 124-128: under [state=present] every device must exist. *)
Definition check_devices (st : state_choice) (dev_list : list string) : Run unit :=
  match st with
  | present =>
      for_each (fun test_dev (_ : unit) =>
                  if path_exists h test_dev then mret tt
                  else fail_json (msg_not_found test_dev) None None)
               dev_list tt
  | absent => mret tt
  end.

(** The body of the loop of lines 142-150. *)
Definition present_step (chk : bool) (pvcreate_cmd : string) (options : list string)
    (pvs_data : gmap string pv_info) (dev : string) (changed : bool) : Run bool :=
  match pvs_data !! dev with
  | None =>
      _ ← (if chk then exit_json true else mret tt);
      '(rc, _, err) ← run_cmd (Pvcreate pvcreate_cmd options dev);
      if rc =? 0 then mret true
      else fail_json (msg_create_failed dev) (Some rc) (Some err)
  | Some _ => mret changed
  end.

(** The body of the loop of lines 152-171. *)
Definition absent_step (chk frc : bool) (pvremove_cmd : string)
    (pvs_data : gmap string pv_info) (dev : string) (changed : bool) : Run bool :=
  match pvs_data !! dev with
  | Some info =>
      _ ← (if chk then exit_json true else mret tt);
      if negb frc then
        if String.eqb (pv_size info) (pv_free info) && PyStr.is_empty (vg_name info)
        then
          '(rc, _, err) ← run_cmd (Pvremove pvremove_cmd dev);
          if rc =? 0 then mret true
          else fail_json (msg_remove_failed dev) (Some rc) (Some err)
        else fail_json (msg_refuse dev (vg_name info)) None None
      else
        '(rc, _, err) ← run_cmd (PvremoveForce pvremove_cmd dev);
        if rc =? 0 then mret true
        else fail_json (msg_remove_failed dev) (Some rc) (Some err)
  | None => mret changed
  end.

(** Lines 139-173: one pass over the device list against the inventory
    [pvs_data], then [exit_json(changed=changed)]. *)
Definition reconcile (p : params) (pvcreate_cmd pvremove_cmd : string)
    (pvs_data : gmap string pv_info) (dev_list : list string) : Run Empty_set :=
  changed ← match state p with
            | present =>
                for_each (present_step (check_mode p) pvcreate_cmd
                            (PyStr.words (pv_options p)) pvs_data)
                         dev_list false
            | absent =>
                for_each (absent_step (check_mode p) (force p) pvremove_cmd pvs_data)
                         dev_list false
            end;
  exit_json changed.

(** Lines 130-137: locate the tools, list the physical volumes once and
    parse the listing. *)
Definition read_inventory : Run (string * string * gmap string pv_info) :=
  pvs_cmd ← get_bin_path_required "pvs";
  pvcreate_cmd ← get_bin_path_required "pvcreate";
  pvremove_cmd ← get_bin_path_required "pvremove";
  '(rc, current_pvs, err) ← run_cmd (Pvs pvs_cmd);
  if negb (rc =? 0) then fail_json msg_pvs_failed (Some rc) (Some err)
  else
    pvs_data ← parse_pvs current_pvs;
    mret (pvcreate_cmd, pvremove_cmd, pvs_data).

Definition main_run (p : params) : Run Empty_set :=
  dev_list ← requested_devices p;
  _ ← check_devices (state p) dev_list;
  '(pvcreate_cmd, pvremove_cmd, pvs_data) ← read_inventory;
  reconcile p pvcreate_cmd pvremove_cmd pvs_data dev_list.

(** A whole invocation: how it ends and the commands it ran. *)
Definition main (p : params) : outcome * list event :=
  match main_run p [] with
  | (inl o, log) => (o, log)
  | (inr e, _) => match e with end
  end.

End LvmPvs.

(** ** Vocabulary of the specification *)

(** The part of [main] before the reconciliation loops (lines 111-137):
    the real paths of the requested devices, the two tools and the
    inventory. *)
Definition prepare (h : Host) (p : params)
  : Run (list string * string * string * gmap string pv_info) :=
  dev_list ← requested_devices h p;
  _ ← check_devices h (state p) dev_list;
  '(pvcreate_cmd, pvremove_cmd, pvs_data) ← read_inventory h;
  mret (dev_list, pvcreate_cmd, pvremove_cmd, pvs_data).

(** The inventory a fresh invocation on [h] would build, if it builds one. *)
Definition snapshot (h : Host) : option (gmap string pv_info) :=
  match read_inventory h [] with
  | (inr (_, _, pvs_data), _) => Some pvs_data
  | (inl _, _) => None
  end.

(** A device already is in the desired state: nothing to do for it. *)
Definition satisfied (st : state_choice) (pvs_data : gmap string pv_info) (dev : string)
  : bool :=
  match st, pvs_data !! dev with
  | present, Some _ | absent, None => true
  | present, None | absent, Some _ => false
  end.

(** The in-use test of line 157. *)
Definition unused (info : pv_info) : Prop :=
  pv_size info = pv_free info /\ vg_name info = "".

(** The message of the failure that follows a mutating command's non-zero
    exit (lines 150, 162 and 171). *)
Definition failure_msg (c : command) : string :=
  match c with
  | Pvcreate _ _ dev => msg_create_failed dev
  | Pvremove _ dev | PvremoveForce _ dev => msg_remove_failed dev
  | Pvs _ => msg_pvs_failed
  | Dmsetup _ _ => msg_dmsetup_failed
  end.

(** What lines 147-150, 159-162 and 168-171 make of the response to the
    mutating command [c]: [changed = True], or the end of the run. *)
Definition finish (c : command) (r : response) : outcome + bool :=
  if r.1.1 =? 0 then inr true
  else inl (Failed (failure_msg c) (Some r.1.1) (Some r.2)).

(** The logged command is not a mutating one that exited non-zero. *)
Definition succeeded (e : event) : Prop :=
  is_mutating (fst e) = true -> e.2.1.1 = 0.

(** The log ends with a mutating command that exited non-zero, the only one
    to do so, and [o] is the failure reported for it. *)
Definition fails_at (ext : list event) (o : outcome) : Prop :=
  exists ext' c rc out err,
    ext = ext' ++ [(c, (rc, out, err))]
    /\ Forall succeeded ext'
    /\ is_mutating c = true
    /\ rc <> 0
    /\ o = Failed (failure_msg c) (Some rc) (Some err).

(** Every entry of the log holds what the host answered to the command,
    given the commands run before it. *)
Definition faithful (h : Host) (log : list event) : Prop :=
  forall t1 e t2,
    log = t1 ++ e :: t2 -> snd e = run_command h (history t1) (render (fst e)).

(** The mutating commands a run outside check mode goes through when none
    fails, computed from the inventory alone. *)
Fixpoint plan (p : params) (pvcreate_cmd pvremove_cmd : string)
    (pvs_data : gmap string pv_info) (dev_list : list string) : list command :=
  match dev_list with
  | [] => []
  | dev :: rest =>
      let later := plan p pvcreate_cmd pvremove_cmd pvs_data rest in
      match state p, pvs_data !! dev with
      | present, None => Pvcreate pvcreate_cmd (PyStr.words (pv_options p)) dev :: later
      | present, Some _ => later
      | absent, None => later
      | absent, Some info =>
          if force p then PvremoveForce pvremove_cmd dev :: later
          else if String.eqb (pv_size info) (pv_free info) && PyStr.is_empty (vg_name info)
               then Pvremove pvremove_cmd dev :: later
               else []
      end
  end.

(** The host has [dmsetup] and every lookup with it exits 0. *)
Definition dmsetup_works (h : Host) : Prop :=
  exists dmsetup_cmd,
    get_bin_path h "dmsetup" = Some dmsetup_cmd /\
    forall hist dm_device,
      (run_command h hist (render (Dmsetup dmsetup_cmd dm_device))).1.1 = 0.

(** The host's [pvcreate] always exits 0. *)
Definition pvcreate_works (h : Host) : Prop :=
  forall hist pvcreate_cmd options dev,
    (run_command h hist (render (Pvcreate pvcreate_cmd options dev))).1.1 = 0.

(** The failures of the [dmsetup] lookup: the tool is missing, or it exited
    non-zero. *)
Definition lookup_failure (o : outcome) : Prop :=
  o = Failed "Failed to find required executable dmsetup" None None
  \/ exists rc err, o = Failed msg_dmsetup_failed (Some rc) (Some err).

(** A line of the listing with fewer than four fields. *)
Definition short_line (line : string) : Prop :=
  (length (PyStr.split ";" (PyStr.strip line)) < 4)%nat.

(** The devices of the request, as real paths. *)
Definition requested (h : Host) (p : params) : list string :=
  map (realpath h) (default [] (pvs p)).

(** The log of an invocation holds a command for which [f] holds. *)
Definition invoked (h : Host) (p : params) (f : command -> bool) : Prop :=
  Exists (fun e => f (fst e) = true) (snd (main h p)).

Definition is_pvremove_of (dev : string) (c : command) : bool :=
  match c with Pvremove _ d => String.eqb d dev | _ => false end.

Definition is_pvremove_ff_of (dev : string) (c : command) : bool :=
  match c with PvremoveForce _ d => String.eqb d dev | _ => false end.

Definition is_pvcreate_of (dev : string) (c : command) : bool :=
  match c with Pvcreate _ _ d => String.eqb d dev | _ => false end.

(** The literal reading of the removal rule without [force], over whole
    invocations: in every run, check mode or not. *)
Definition graceful_rule_in_every_run (h : Host) (p : params) : Prop :=
  forall dev inv info,
    state p = absent -> force p = false ->
    In dev (requested h p) -> snapshot h = Some inv -> inv !! dev = Some info ->
    (invoked h p (is_pvremove_of dev) <-> unused info)
    /\ (~ unused info ->
        fst (main h p) = Failed (msg_refuse dev (vg_name info)) None None).

(** The literal reading of the removal rule with [force]. *)
Definition forced_rule_in_every_run (h : Host) (p : params) : Prop :=
  forall dev inv info,
    state p = absent -> force p = true ->
    In dev (requested h p) -> snapshot h = Some inv -> inv !! dev = Some info ->
    invoked h p (is_pvremove_ff_of dev).

(** The literal reading of the creation rule. *)
Definition creation_rule_in_every_run (h : Host) (p : params) : Prop :=
  forall dev inv,
    state p = present ->
    In dev (requested h p) -> snapshot h = Some inv -> inv !! dev = None ->
    length (filter (fun e => is_pvcreate_of dev (fst e) = true) (snd (main h p))) = 1%nat
    /\ fst (main h p) = Exited true.

(** ** Predicates on runs *)

(** The name under which a line is stored, once the lookup (if any) is
    done. *)
Definition resolve (h : Host) (name : string) : Run string :=
  if PyStr.startswith dm_prefix name
  then find_mapper_device_name h name else mret name.

Definition is_failure (o : outcome) : Prop :=
  match o with Failed _ _ _ => True | _ => False end.

Definition dmsetup_event (e : event) : Prop := is_dmsetup (fst e) = true.
Definition mutating_event (e : event) : Prop := is_mutating (fst e) = true.
Definition listing_event (e : event) : Prop := is_listing (fst e) = true.

(** [emits P m]: whatever the log before, [m] only appends events, all of
    them satisfying [P]. *)
Definition emits {A : Type} (P : event -> Prop) (m : Run A) : Prop :=
  forall log, exists ext, snd (m log) = log ++ ext /\ Forall P ext.

(** [m] keeps the log faithful to the host. *)
Definition keeps_faithful (h : Host) {A : Type} (m : Run A) : Prop :=
  forall log, faithful h log -> faithful h (snd (m log)).

(** [m] appends only succeeded commands, unless it stops on the failure of
    the mutating command it ran last. *)
Definition fail_closed {A : Type} (m : Run A) : Prop :=
  forall log, exists ext,
    snd (m log) = log ++ ext
    /\ match fst (m log) with
       | inr _ => Forall succeeded ext
       | inl o => Forall succeeded ext \/ fails_at ext o
       end.

(** ** Further vocabulary *)

(** What a mutating command of a run may be, given the request and the
    inventory: [pvcreate], with the options of the request, on a requested
    device that the inventory does not hold; [pvremove] on a requested device
    that the inventory holds as unused; [pvremove -ff -y] on a requested
    device that the inventory holds. *)
Definition allowed (p : params) (pvcreate_cmd pvremove_cmd : string)
    (pvs_data : gmap string pv_info) (dev_list : list string) (c : command) : Prop :=
  match c with
  | Pvcreate tool options dev =>
      state p = present /\ tool = pvcreate_cmd
      /\ options = PyStr.words (pv_options p)
      /\ In dev dev_list /\ pvs_data !! dev = None
  | Pvremove tool dev =>
      state p = absent /\ force p = false /\ tool = pvremove_cmd
      /\ In dev dev_list /\ exists info, pvs_data !! dev = Some info /\ unused info
  | PvremoveForce tool dev =>
      state p = absent /\ force p = true /\ tool = pvremove_cmd
      /\ In dev dev_list /\ is_Some (pvs_data !! dev)
  | Pvs _ | Dmsetup _ _ => False
  end.

Definition nonempty {A : Type} (l : list A) : bool :=
  match l with [] => false | _ :: _ => true end.

(** The host [h] with another answer to [os.path.exists]. *)
Definition with_path_exists (h : Host) (f : string -> bool) : Host := {|
  realpath := realpath h;
  path_exists := f;
  get_bin_path := get_bin_path h;
  run_command := run_command h
|}.

(** The fields of a line of the listing. *)
Definition fields (line : string) : list string :=
  PyStr.split ";" (PyStr.strip line).

(** The name and the record a line stands for, when it has four fields. *)
Definition record_of (line : string) : option (string * pv_info) :=
  match fields line with
  | name :: vg :: size :: free :: _ => Some (name, PvInfo vg size free)
  | _ => None
  end.

(** A line with at least four fields whose name is not a [/dev/dm-] one. *)
Definition plain_line (line : string) : Prop :=
  exists name info,
    record_of line = Some (name, info) /\ PyStr.startswith dm_prefix name = false.

(** The record of the last line named [k], if any. *)
Fixpoint last_info (k : string) (lines : list string) : option pv_info :=
  match lines with
  | [] => None
  | line :: rest =>
      match last_info k rest with
      | Some info => Some info
      | None =>
          match record_of line with
          | Some (name, info) => if String.eqb name k then Some info else None
          | None => None
          end
      end
  end.

(** A string of whitespace only. *)
Definition blank (s : string) : Prop := PyStr.lstrip s = "".

(** A run ended otherwise than by [exit_json]. *)
Definition is_error (o : outcome) : Prop :=
  match o with Exited _ => False | Failed _ _ _ | Raised _ => True end.

(** [m] stops only with outcomes satisfying [P]. *)
Definition stops_with {A : Type} (P : outcome -> Prop) (m : Run A) : Prop :=
  forall log o log', m log = (inl o, log') -> P o.

(** [m] goes on only past commands that exited 0: it appends such commands
    only, unless it stops on the failure reported for the command it ran
    last, which exited non-zero. *)
Definition fail_fast {A : Type} (m : Run A) : Prop :=
  forall log, exists ext,
    snd (m log) = log ++ ext
    /\ match fst (m log) with
       | inr _ => Forall (fun e => e.2.1.1 = 0) ext
       | inl o =>
           Forall (fun e => e.2.1.1 = 0) ext
           \/ exists ext' c rc out err,
               ext = ext' ++ [(c, (rc, out, err))]
               /\ Forall (fun e => e.2.1.1 = 0) ext'
               /\ rc <> 0
               /\ o = Failed (failure_msg c) (Some rc) (Some err)
       end.

(** ** The script of a reconciliation *)

(** What the loop decides for a device that is not in the desired state:
    run a command, or refuse to remove. *)
Inductive decision : Set :=
| Execute (c : command)
| Refuse (dev vg : string).

(** The decisions of lines 141-171 for the whole device list, in order,
    computed from the parameters and the inventory alone; devices in the
    desired state give no decision, and nothing follows a refusal. *)
Fixpoint script (p : params) (pvcreate_cmd pvremove_cmd : string)
    (pvs_data : gmap string pv_info) (dev_list : list string) : list decision :=
  match dev_list with
  | [] => []
  | dev :: rest =>
      let later := script p pvcreate_cmd pvremove_cmd pvs_data rest in
      match state p, pvs_data !! dev with
      | present, None =>
          Execute (Pvcreate pvcreate_cmd (PyStr.words (pv_options p)) dev) :: later
      | present, Some _ => later
      | absent, None => later
      | absent, Some info =>
          if force p then Execute (PvremoveForce pvremove_cmd dev) :: later
          else if String.eqb (pv_size info) (pv_free info) && PyStr.is_empty (vg_name info)
               then Execute (Pvremove pvremove_cmd dev) :: later
               else [Refuse dev (vg_name info)]
      end
  end.

(** Carrying out a script: each command is run in turn, exit code 0 sets
    [changed] and goes on, another one fails the run; a refusal fails the
    run. *)
Fixpoint follow (h : Host) (s : list decision) (changed : bool) : Run bool :=
  match s with
  | [] => mret changed
  | Execute c :: rest =>
      '(rc, _, err) ← run_cmd h c;
      if rc =? 0 then follow h rest true
      else fail_json (failure_msg c) (Some rc) (Some err)
  | Refuse dev vg :: _ => fail_json (msg_refuse dev vg) None None
  end.

(** The end of [main] after the loops: [exit_json(changed=changed)]. *)
Definition conclude (r : (outcome + bool) * list event) : outcome * list event :=
  match r with
  | (inl o, log) => (o, log)
  | (inr changed, log) => (Exited changed, log)
  end.

Definition found (h : Host) (name : string) : bool :=
  match get_bin_path h name with Some _ => true | None => false end.

(** The request passes the checks of lines 115-128 and the three tools are
    found: the run gets to the listing command. *)
Definition reaches_listing (h : Host) (p : params) : bool :=
  match pvs p with
  | Some (dev :: devs) =>
      match state p with
      | present => forallb (path_exists h) (map (realpath h) (dev :: devs))
      | absent => true
      end
      && found h "pvs" && found h "pvcreate" && found h "pvremove"
  | Some [] | None => false
  end.

(** The listing command is run exactly once in the invocation. *)
Definition listed_once (h : Host) (p : params) : Prop :=
  length (filter (fun e => is_listing (fst e) = true) (snd (main h p))) = 1%nat.

(** The literal reading of the parser's failure on a short line: the parse
    always ends by [IndexError]. *)
Definition short_line_raises (h : Host) (data : string) : Prop :=
  Exists short_line (PyStr.splitlines data) ->
  fst (parse_pvs h data []) = inl (Raised IndexError).

(** ** Sample hosts *)

Module Demo.

Definition nl : string := String "010" "".

(** Three physical volumes: a free one, one in group [vg0], and a
    device-mapper one listed under its kernel name. *)
Definition listing : string :=
  "  /dev/sda1;;100B;100B" +:+ nl +:+
  "  /dev/sdb1;vg0;100B;0B" +:+ nl +:+
  "  /dev/dm-0;vg1;100B;100B" +:+ nl.

(** A host on which [pvs] prints [out], [dmsetup] names every node
    [vg1-lv], and [pvcreate] and [pvremove] exit [rc].
    [/dev/mapper/vg1-lv] is a symbolic link to [/dev/dm-0], and
    [/dev/nope] does not exist. *)
Definition host (out : string) (rc : Z) : Host := {|
  realpath := fun path =>
    if String.eqb path "/dev/mapper/vg1-lv" then "/dev/dm-0" else path;
  path_exists := fun path => negb (String.eqb path "/dev/nope");
  get_bin_path := fun name => Some ("/sbin/" +:+ name);
  run_command := fun _ c =>
    match c with
    | CmdString s =>
        if String.prefix "/sbin/pvs " s then (0, out, "")
        else if String.prefix "/sbin/dmsetup " s then (0, "vg1-lv" +:+ nl, "")
        else (rc, "", if rc =? 0 then "" else "pvremove said no")
    | CmdList _ => (rc, "", if rc =? 0 then "" else "pvcreate said no")
    end
|}.

(** A host on which [pvs] prints [out] and every [dmsetup] lookup exits 1. *)
Definition host_without_mapper (out : string) : Host := {|
  realpath := fun path => path;
  path_exists := fun _ => true;
  get_bin_path := fun name => Some ("/sbin/" +:+ name);
  run_command := fun _ c =>
    match c with
    | CmdString s =>
        if String.prefix "/sbin/pvs " s then (0, out, "")
        else (1, "", "Device does not exist.")
    | CmdList _ => (0, "", "")
    end
|}.

(** The inventory read from [listing]. *)
Definition inventory : gmap string pv_info :=
  <["/dev/sda1" := PvInfo "" "100B" "100B"]>
    (<["/dev/sdb1" := PvInfo "vg0" "100B" "0B"]>
       (<["/dev/mapper/vg1-lv" := PvInfo "vg1" "100B" "100B"]> ∅)).

(** The log of the inventory phase on [host listing rc]. *)
Definition inventory_log : list event :=
  [(Pvs "/sbin/pvs", (0, listing, ""));
   (Dmsetup "/sbin/dmsetup" "/dev/dm-0", (0, "vg1-lv" +:+ nl, ""))].

End Demo.

(** ** The string primitives on examples *)

Example strip_ex : PyStr.strip "  /dev/sda1;vg0;10B;0B  " = "/dev/sda1;vg0;10B;0B".
Proof. reflexivity. Qed.

Example split_ex : PyStr.split ";" "/dev/sda1;;10B;10B" = ["/dev/sda1"; ""; "10B"; "10B"].
Proof. reflexivity. Qed.

Example split_blank : PyStr.split ";" "" = [""].
Proof. reflexivity. Qed.

Example words_ex : PyStr.words " --metadatacopies 2   -ff " = ["--metadatacopies"; "2"; "-ff"].
Proof. reflexivity. Qed.

Example splitlines_ex :
  PyStr.splitlines ("a" +:+ String "010" ("" +:+ String "013" (String "010" "b" +:+ String "010" "")))
  = ["a"; ""; "b"].
Proof. reflexivity. Qed.

Lemma split_nonempty sep s : PyStr.split sep s <> [].
Proof.
  destruct s as [|c s]; simpl; [discriminate|].
  destruct (Ascii.eqb c sep); [discriminate|].
  destruct (PyStr.split sep s); discriminate.
Qed.

(** ** Reasoning about runs *)

Lemma bind_unfold {A B : Type} (m : Run A) (k : A -> Run B) (log : list event) :
  (m ≫= k) log =
  match m log with
  | (inl o, log') => (inl o, log')
  | (inr a, log') => k a log'
  end.
Proof. reflexivity. Qed.

Lemma for_each_app {A S : Type} (body : A -> S -> Run S) (l1 l2 : list A) s log :
  for_each body (l1 ++ l2) s log =
  match for_each body l1 s log with
  | (inl o, log') => (inl o, log')
  | (inr s', log') => for_each body l2 s' log'
  end.
Proof.
  revert s log. induction l1 as [|a l1 IH]; intros s log; simpl; [reflexivity|].
  rewrite !bind_unfold. destruct (body a s log) as [[o|s'] log']; [reflexivity|].
  apply IH.
Qed.


Lemma emits_ret {A : Type} (P : event -> Prop) (a : A) : emits P (mret a).
Proof. intros log. exists []. split; [symmetry; apply app_nil_r | constructor]. Qed.

Lemma emits_stop {A : Type} (P : event -> Prop) (o : outcome) : emits P (@stop A o).
Proof. intros log. exists []. split; [symmetry; apply app_nil_r | constructor]. Qed.

Lemma emits_bind {A B : Type} (P : event -> Prop) (m : Run A) (k : A -> Run B) :
  emits P m -> (forall a, emits P (k a)) -> emits P (m ≫= k).
Proof.
  intros Hm Hk log. rewrite bind_unfold.
  destruct (Hm log) as (ext & E & F).
  destruct (m log) as [[o|a] log']; simpl in E; subst log'.
  - exists ext. split; [reflexivity | assumption].
  - destruct (Hk a (log ++ ext)) as (ext' & E' & F').
    exists (ext ++ ext'). rewrite E', app_assoc. split; [reflexivity|].
    apply Forall_app; split; assumption.
Qed.

Lemma emits_for_each {A S : Type} (P : event -> Prop) (body : A -> S -> Run S) l :
  (forall a s, emits P (body a s)) -> forall s, emits P (for_each body l s).
Proof.
  intros Hb. induction l as [|a l IH]; intros s; simpl.
  - apply emits_ret.
  - apply emits_bind; [apply Hb | apply IH].
Qed.

Lemma emits_weaken {A : Type} (P Q : event -> Prop) (m : Run A) :
  (forall e, P e -> Q e) -> emits P m -> emits Q m.
Proof.
  intros PQ Hm log. destruct (Hm log) as (ext & E & F).
  exists ext. split; [assumption|]. eapply Forall_impl; eassumption.
Qed.

Lemma emits_if {A : Type} (P : event -> Prop) (b : bool) (m1 m2 : Run A) :
  emits P m1 -> emits P m2 -> emits P (if b then m1 else m2).
Proof. destruct b; auto. Qed.

(** A computation that appends nothing leaves the log as it found it. *)
Lemma emits_nothing {A : Type} (m : Run A) log :
  emits (fun _ => False) m -> snd (m log) = log.
Proof.
  intros Hm. destruct (Hm log) as (ext & E & F).
  destruct ext as [|e ext]; [rewrite E; apply app_nil_r|].
  inversion F; contradiction.
Qed.

(** Unfold the binds at the head of a run, as far as the results are known. *)
Ltac run_simpl :=
  repeat first
    [ rewrite bind_unfold
    | progress cbn [mret Run_ret stop exit_json fail_json raise run_cmd] ].


Section Facts.

Variable h : Host.

Lemma emits_run_cmd (P : event -> Prop) (c : command) :
  (forall r, P (c, r)) -> emits P (run_cmd h c).
Proof.
  intros Hc log. exists [(c, run_command h (history log) (render c))].
  split; [reflexivity|]. constructor; [apply Hc | constructor].
Qed.

Lemma emits_get_bin_path_required (P : event -> Prop) name :
  emits P (get_bin_path_required h name).
Proof.
  unfold get_bin_path_required. destruct (get_bin_path h name).
  - apply emits_ret.
  - apply emits_stop.
Qed.

Lemma emits_index (P : event -> Prop) parts i : emits P (index parts i).
Proof. unfold index. destruct (parts !! i); [apply emits_ret | apply emits_stop]. Qed.

End Facts.


(** ** The phases of [main] *)


Section Phases.

Variable h : Host.

(** *** Device list *)

Lemma requested_devices_eq p log :
  requested_devices h p log =
  (match pvs p with
   | Some (dev :: devs) => inr (map (realpath h) (dev :: devs))
   | _ => match state p with
          | present => inl (Failed msg_no_pvs None None)
          | absent => inl (Raised (UnboundLocalError "dev_list"))
          end
   end, log).
Proof.
  unfold requested_devices. rewrite bind_unfold.
  destruct (pvs p) as [[|dev devs]|]; try reflexivity;
    destruct (state p); reflexivity.
Qed.

Lemma check_devices_present_ok dev_list log :
  Forall (fun d => path_exists h d = true) dev_list ->
  check_devices h present dev_list log = (inr tt, log).
Proof.
  unfold check_devices. induction 1 as [|d l Hd Hl IH]; simpl; [reflexivity|].
  rewrite bind_unfold, Hd. simpl. apply IH.
Qed.

Lemma check_devices_present_missing pre d post log :
  Forall (fun d => path_exists h d = true) pre ->
  path_exists h d = false ->
  check_devices h present (pre ++ d :: post) log
  = (inl (Failed (msg_not_found d) None None), log).
Proof.
  intros Hpre Hd. unfold check_devices. rewrite for_each_app.
  change (for_each _ pre tt log) with (check_devices h present pre log).
  rewrite (check_devices_present_ok _ _ Hpre). simpl.
  rewrite bind_unfold, Hd. reflexivity.
Qed.

Lemma emits_check_devices P st dev_list : emits P (check_devices h st dev_list).
Proof.
  unfold check_devices. destruct st; [|apply emits_ret].
  apply emits_for_each. intros d []. apply emits_if; [apply emits_ret | apply emits_stop].
Qed.

(** *** Inventory *)

Lemma emits_find_mapper_device_name dm_device :
  emits dmsetup_event (find_mapper_device_name h dm_device).
Proof.
  unfold find_mapper_device_name.
  apply emits_bind; [apply emits_get_bin_path_required|]. intros cmd.
  apply emits_bind; [apply emits_run_cmd; reflexivity|]. intros [[rc out] err].
  apply emits_if; [apply emits_stop | apply emits_ret].
Qed.

Lemma emits_parse_line line inv : emits dmsetup_event (parse_line h line inv).
Proof.
  unfold parse_line.
  apply emits_bind; [apply emits_index|]. intros name.
  apply emits_bind.
  { apply emits_if; [apply emits_find_mapper_device_name | apply emits_ret]. }
  intros name'.
  repeat (apply emits_bind; [apply emits_index|]; intros ?).
  apply emits_ret.
Qed.

Lemma emits_parse_pvs data : emits dmsetup_event (parse_pvs h data).
Proof. unfold parse_pvs. apply emits_for_each. apply emits_parse_line. Qed.

(** *** Reconciliation *)

Lemma emits_present_step chk cmd opts inv dev changed :
  emits mutating_event (present_step h chk cmd opts inv dev changed).
Proof.
  unfold present_step. destruct (inv !! dev); [apply emits_ret|].
  apply emits_bind; [apply emits_if; [apply emits_stop | apply emits_ret]|]. intros _.
  apply emits_bind; [apply emits_run_cmd; reflexivity|]. intros [[rc out] err].
  apply emits_if; [apply emits_ret | apply emits_stop].
Qed.

Lemma emits_absent_step chk frc cmd inv dev changed :
  emits mutating_event (absent_step h chk frc cmd inv dev changed).
Proof.
  unfold absent_step. destruct (inv !! dev) as [info|]; [|apply emits_ret].
  apply emits_bind; [apply emits_if; [apply emits_stop | apply emits_ret]|]. intros _.
  repeat apply emits_if; try apply emits_stop;
    (apply emits_bind; [apply emits_run_cmd; reflexivity|]; intros [[rc out] err];
     apply emits_if; [apply emits_ret | apply emits_stop]).
Qed.

Lemma emits_reconcile p c1 c2 inv dev_list :
  emits mutating_event (reconcile h p c1 c2 inv dev_list).
Proof.
  unfold reconcile. apply emits_bind; [|intros; apply emits_stop].
  destruct (state p); apply emits_for_each; intros;
    [apply emits_present_step | apply emits_absent_step].
Qed.

(** In check mode the two loop bodies append nothing. *)
Lemma quiet_present_step cmd opts inv dev changed :
  emits (fun _ => False) (present_step h true cmd opts inv dev changed).
Proof.
  unfold present_step. destruct (inv !! dev); [apply emits_ret|].
  intros log. exists []. rewrite bind_unfold. simpl.
  split; [symmetry; apply app_nil_r | constructor].
Qed.

Lemma quiet_absent_step frc cmd inv dev changed :
  emits (fun _ => False) (absent_step h true frc cmd inv dev changed).
Proof.
  unfold absent_step. destruct (inv !! dev); [|apply emits_ret].
  intros log. exists []. rewrite bind_unfold. simpl.
  split; [symmetry; apply app_nil_r | constructor].
Qed.

Lemma quiet_reconcile p c1 c2 inv dev_list :
  check_mode p = true ->
  emits (fun _ => False) (reconcile h p c1 c2 inv dev_list).
Proof.
  intros Hc. unfold reconcile. rewrite Hc.
  apply emits_bind; [|intros; apply emits_stop].
  destruct (state p); apply emits_for_each; intros;
    [apply quiet_present_step | apply quiet_absent_step].
Qed.

End Phases.

Section Whole.

Variable h : Host.

Lemma main_run_eq p log :
  main_run h p log =
  match requested_devices h p log with
  | (inl o, l1) => (inl o, l1)
  | (inr dev_list, l1) =>
      match check_devices h (state p) dev_list l1 with
      | (inl o, l2) => (inl o, l2)
      | (inr _, l2) =>
          match read_inventory h l2 with
          | (inl o, l3) => (inl o, l3)
          | (inr (c1, c2, inv), l3) => reconcile h p c1 c2 inv dev_list l3
          end
      end
  end.
Proof.
  unfold main_run. rewrite bind_unfold.
  destruct (requested_devices h p log) as [[o|dev_list] l1]; [reflexivity|].
  rewrite bind_unfold.
  destruct (check_devices h (state p) dev_list l1) as [[o|u] l2]; [reflexivity|].
  rewrite bind_unfold.
  destruct (read_inventory h l2) as [[o|[[c1 c2] inv]] l3]; reflexivity.
Qed.

Lemma main_eq p :
  main h p =
  match main_run h p [] with
  | (inl o, log) => (o, log)
  | (inr e, _) => match e with end
  end.
Proof. reflexivity. Qed.

(** The run of [read_inventory]: nothing when a tool is missing;
    otherwise the listing command first, then only [dmsetup] lookups. *)
Lemma read_inventory_shape log :
  (snd (read_inventory h log) = log /\ exists o, fst (read_inventory h log) = inl o)
  \/ exists pvs_cmd rc out err dms,
      snd (read_inventory h log) = log ++ (Pvs pvs_cmd, (rc, out, err)) :: dms
      /\ Forall dmsetup_event dms
      /\ (rc <> 0 ->
          read_inventory h log
          = (inl (Failed msg_pvs_failed (Some rc) (Some err)),
             log ++ [(Pvs pvs_cmd, (rc, out, err))])).
Proof.
  unfold read_inventory, get_bin_path_required.
  destruct (get_bin_path h "pvs") as [pvs_cmd|]; [|left; split; [reflexivity|eauto]].
  destruct (get_bin_path h "pvcreate") as [c1|]; [|left; split; [reflexivity|eauto]].
  destruct (get_bin_path h "pvremove") as [c2|]; [|left; split; [reflexivity|eauto]].
  right. run_simpl.
  destruct (run_command h (history log) (render (Pvs pvs_cmd))) as [[rc out] err].
  exists pvs_cmd, rc, out, err.
  destruct (Z.eqb_spec rc 0) as [->|Hrc]; cbn [negb]; run_simpl.
  - destruct (emits_parse_pvs h out (log ++ [(Pvs pvs_cmd, (0, out, err))]))
      as (dms & E & F).
    exists dms.
    destruct (parse_pvs h out _) as [[o|inv] l]; simpl in *; subst l;
      rewrite <- app_assoc; (split; [reflexivity|]); (split; [assumption|]);
      intros; congruence.
  - exists []. split; [reflexivity|]. split; [constructor|]. reflexivity.
Qed.

(** The shape of the log of a whole invocation. *)
Lemma main_log_shape p :
  snd (main h p) = []
  \/ exists pvs_cmd rc out err dms muts,
      snd (main h p) = (Pvs pvs_cmd, (rc, out, err)) :: dms ++ muts
      /\ Forall dmsetup_event dms
      /\ Forall mutating_event muts
      /\ (rc <> 0 ->
          main h p = (Failed msg_pvs_failed (Some rc) (Some err),
                      [(Pvs pvs_cmd, (rc, out, err))])).
Proof.
  rewrite main_eq, main_run_eq, requested_devices_eq.
  destruct (match pvs p with Some (dev :: devs) => _ | _ => _ end)
    as [o|dev_list]; [left; reflexivity|].
  pose proof (emits_nothing _ [] (emits_check_devices h _ (state p) dev_list)) as Hc.
  destruct (check_devices h (state p) dev_list []) as [[o|u] l2];
    simpl in Hc; subst l2; [left; reflexivity|].
  destruct (read_inventory_shape []) as [[E [o Ho]]|(c & rc & out & err & dms & E & F & Hf)].
  - destruct (read_inventory h []) as [[o'|x] l3]; simpl in *; [|discriminate].
    subst l3. left; reflexivity.
  - right. exists c, rc, out, err.
    destruct (read_inventory h []) as [[o|[[c1 c2] inv]] l3] eqn:Er; simpl in E; subst l3.
    + exists dms, []. rewrite app_nil_r. simpl.
      repeat split; try assumption; try constructor.
      intros Hrc. specialize (Hf Hrc). simpl in Hf. inversion Hf; subst. reflexivity.
    + destruct (emits_reconcile h p c1 c2 inv dev_list ((Pvs c, (rc, out, err)) :: dms))
        as (muts & E & F').
      exists dms, muts.
      destruct (reconcile h p c1 c2 inv dev_list _) as [[o|[]] l4]; simpl in *; subst l4.
      repeat split; try assumption.
      intros Hrc. specialize (Hf Hrc). discriminate.
Qed.

End Whole.

(** ** The precondition checks *)

Lemma main_run_prepare h p log :
  main_run h p log =
  (prepare h p ≫= fun '(dev_list, c1, c2, inv) => reconcile h p c1 c2 inv dev_list) log.
Proof.
  rewrite main_run_eq. unfold prepare. run_simpl.
  destruct (requested_devices h p log) as [[o|dev_list] l1]; [reflexivity|].
  run_simpl.
  destruct (check_devices h (state p) dev_list l1) as [[o|u] l2]; [reflexivity|].
  run_simpl.
  destruct (read_inventory h l2) as [[o|[[c1 c2] inv]] l3]; reflexivity.
Qed.

Lemma main_after_prepare h p dev_list c1 c2 inv log :
  prepare h p [] = (inr (dev_list, c1, c2, inv), log) ->
  main h p =
  match reconcile h p c1 c2 inv dev_list log with
  | (inl o, log') => (o, log')
  | (inr e, _) => match e with end
  end.
Proof.
  intros E. rewrite main_eq, main_run_prepare, bind_unfold, E. reflexivity.
Qed.

(** C3.  With no device given ([pvs] empty or not supplied) the run under
    [state=present] fails at once with "No physical volumes given." and
    runs no command; under [state=absent] it does not end as a silent
    no-op: [dev_list] was never bound, and the loop of line 121 raises
    [UnboundLocalError] before any command is run. *)
Theorem C3_no_devices_given (h : Host) (opts : string) (frc chk : bool) :
  main h (Params (Some []) opts absent frc chk) = (Raised (UnboundLocalError "dev_list"), [])
  /\ main h (Params None opts absent frc chk) = (Raised (UnboundLocalError "dev_list"), [])
  /\ main h (Params (Some []) opts present frc chk) = (Failed msg_no_pvs None None, [])
  /\ main h (Params None opts present frc chk) = (Failed msg_no_pvs None None, []).
Proof.
  repeat split; rewrite main_eq, main_run_eq, requested_devices_eq; reflexivity.
Qed.

(** C7.  Under [state=present], when some requested device does not exist
    (its real path is what is tested), the run fails with "Device ... not
    found." naming the first such device, whatever its position in the list,
    and no command at all has been run: the whole list is validated before
    the tools are even located. *)
Theorem C7_missing_device_fails_up_front
    (h : Host) (opts : string) (frc chk : bool) (pre : list string) (d : string)
    (post : list string) :
  Forall (fun x => path_exists h (realpath h x) = true) pre ->
  path_exists h (realpath h d) = false ->
  main h (Params (Some (pre ++ d :: post)) opts present frc chk)
  = (Failed (msg_not_found (realpath h d)) None None, []).
Proof.
  intros Hpre Hd. rewrite main_eq, main_run_eq, requested_devices_eq.
  cbn [pvs state].
  assert (E : exists x l, pre ++ d :: post = x :: l).
  { destruct pre; simpl; eauto. }
  destruct E as (x & l & E). rewrite E, <- E. clear E x l.
  rewrite map_app. cbn [map].
  rewrite check_devices_present_missing; [reflexivity| |assumption].
  apply Forall_map. exact Hpre.
Qed.

Lemma C7_missing_device_witness :
  main (Demo.host Demo.listing 0)
       (Params (Some (["/dev/sda1"] ++ "/dev/nope" :: ["/dev/sdc1"])) "" present false false)
  = (Failed "Device /dev/nope not found." None None, []).
Proof.
  apply (C7_missing_device_fails_up_front (Demo.host Demo.listing 0) "" false false
           ["/dev/sda1"] "/dev/nope" ["/dev/sdc1"]).
  - repeat constructor.
  - reflexivity.
Defined.

(** ** Check mode *)

Section CheckMode.

Variable h : Host.

Lemma check_present_loop c1 opts inv dev_list changed log :
  for_each (present_step h true c1 opts inv) dev_list changed log =
  (if forallb (satisfied present inv) dev_list then inr changed else inl (Exited true), log).
Proof.
  revert changed log. induction dev_list as [|d l IH]; intros changed log; [reflexivity|].
  cbn [for_each forallb]. run_simpl.
  unfold present_step at 1, satisfied at 1.
  destruct (inv !! d); run_simpl; [apply IH | reflexivity].
Qed.

Lemma check_absent_loop frc c2 inv dev_list changed log :
  for_each (absent_step h true frc c2 inv) dev_list changed log =
  (if forallb (satisfied absent inv) dev_list then inr changed else inl (Exited true), log).
Proof.
  revert changed log. induction dev_list as [|d l IH]; intros changed log; [reflexivity|].
  cbn [for_each forallb]. run_simpl.
  unfold absent_step at 1, satisfied at 1.
  destruct (inv !! d); run_simpl; [reflexivity | apply IH].
Qed.

Lemma check_reconcile pvs0 opts st frc c1 c2 inv dev_list log :
  reconcile h (Params pvs0 opts st frc true) c1 c2 inv dev_list log =
  (inl (Exited (negb (forallb (satisfied st inv) dev_list))), log).
Proof.
  unfold reconcile. cbn [state check_mode force pv_options]. run_simpl.
  destruct st; [rewrite check_present_loop | rewrite check_absent_loop];
    destruct (forallb _ dev_list); reflexivity.
Qed.

End CheckMode.

(** An invocation's log holds the events of the inventory phase and those
    of the reconciliation. *)
Lemma emits_main_run (h : Host) (P : event -> Prop) (p : params) :
  (forall e, listing_event e \/ dmsetup_event e -> P e) ->
  (forall c1 c2 inv dev_list, emits P (reconcile h p c1 c2 inv dev_list)) ->
  emits P (main_run h p).
Proof.
  intros HP Hr. unfold main_run.
  apply emits_bind.
  { intros log. exists []. rewrite requested_devices_eq.
    split; [symmetry; apply app_nil_r | constructor]. }
  intros dev_list. apply emits_bind; [apply emits_check_devices|]. intros _.
  apply emits_bind; [|intros [[c1 c2] inv]; apply Hr].
  unfold read_inventory.
  repeat (apply emits_bind; [apply emits_get_bin_path_required|]; intros ?).
  apply emits_bind.
  { apply emits_run_cmd. intros r. apply HP. left. reflexivity. }
  intros [[rc out] err]. apply emits_if; [apply emits_stop|].
  apply emits_bind; [|intros; apply emits_ret].
  eapply emits_weaken; [|apply emits_parse_pvs]. intros e He. apply HP. right. exact He.
Qed.

Lemma main_log_emits (h : Host) (P : event -> Prop) (p : params) :
  emits P (main_run h p) -> Forall P (snd (main h p)).
Proof.
  intros Hm. destruct (Hm []) as (ext & E & F). rewrite main_eq.
  destruct (main_run h p []) as [[o|[]] log]. simpl in *. subst log. exact F.
Qed.

(** C2.  In check mode no [pvcreate] or [pvremove] is ever run, whatever
    the parameters and the host.  Given the inventory and the device list,
    the reconciliation exits with [changed=true], leaving the log as it was,
    at the first device not in the desired state, whatever follows it in the
    list; it exits with [changed=false] when every device is in the desired
    state.  So a run that gets as far as the inventory reports whether some
    requested device is not in the desired state. *)
Theorem C2_check_mode_never_mutates
    (h : Host) (pvs0 : option (list string)) (opts : string) (st : state_choice)
    (frc : bool) :
  let p := Params pvs0 opts st frc true in
  Forall (fun e => is_mutating (fst e) = false) (snd (main h p))
  /\ (forall c1 c2 inv pre d post log,
        Forall (fun x => satisfied st inv x = true) pre ->
        satisfied st inv d = false ->
        reconcile h p c1 c2 inv (pre ++ d :: post) log = (inl (Exited true), log))
  /\ (forall c1 c2 inv dev_list log,
        Forall (fun x => satisfied st inv x = true) dev_list ->
        reconcile h p c1 c2 inv dev_list log = (inl (Exited false), log))
  /\ (forall dev_list c1 c2 inv log,
        prepare h p [] = (inr (dev_list, c1, c2, inv), log) ->
        main h p = (Exited (negb (forallb (satisfied st inv) dev_list)), log)).
Proof.
  intros p. split; [|split; [|split]].
  - apply main_log_emits, emits_main_run.
    + intros [c r] [H|H]; destruct c; try discriminate H; reflexivity.
    + intros c1 c2 inv dev_list. eapply emits_weaken; [|apply quiet_reconcile; reflexivity].
      intros e [].
  - intros c1 c2 inv pre d post log Hpre Hd. unfold p. rewrite check_reconcile.
    rewrite forallb_app. cbn [forallb]. rewrite Hd, andb_false_r. reflexivity.
  - intros c1 c2 inv dev_list log Hall. unfold p. rewrite check_reconcile.
    replace (forallb (satisfied st inv) dev_list) with true; [reflexivity|].
    symmetry. apply forallb_forall. intros x Hx.
    rewrite Forall_forall in Hall. apply Hall. apply list_elem_of_In. exact Hx.
  - intros dev_list c1 c2 inv log E.
    rewrite (main_after_prepare _ _ _ _ _ _ _ E). unfold p. rewrite check_reconcile.
    reflexivity.
Qed.

Lemma C2_check_mode_witness :
  reconcile (Demo.host Demo.listing 0) (Params None "" present false true)
    "/sbin/pvcreate" "/sbin/pvremove" Demo.inventory
    (["/dev/sda1"] ++ "/dev/sdc1" :: ["/dev/sdd1"]) Demo.inventory_log
  = (inl (Exited true), Demo.inventory_log).
Proof.
  destruct (C2_check_mode_never_mutates (Demo.host Demo.listing 0) None "" present false)
    as (_ & H & _).
  apply H.
  - constructor; [vm_compute; reflexivity | constructor].
  - vm_compute. reflexivity.
Defined.

(** ** The reconciliation loops outside check mode *)

Lemma unused_spec (info : pv_info) :
  String.eqb (pv_size info) (pv_free info) && PyStr.is_empty (vg_name info) = true
  <-> unused info.
Proof.
  unfold unused. rewrite andb_true_iff, String.eqb_eq.
  destruct (vg_name info); simpl; intuition congruence.
Qed.

Lemma for_each_reaches {A S : Type} (body : A -> S -> Run S) pre x post s log s' log' :
  for_each body pre s log = (inr s', log') ->
  for_each body (pre ++ x :: post) s log = (body x s' ≫= for_each body post) log'.
Proof. intros E. rewrite for_each_app, E. reflexivity. Qed.

Lemma bind_log_extends {A B : Type} (P : event -> Prop) (m : Run A) (k : A -> Run B)
    log r log' :
  m log = (r, log') -> (forall a, emits P (k a)) ->
  exists ext, snd ((m ≫= k) log) = log' ++ ext.
Proof.
  intros E Hk. rewrite bind_unfold, E. destruct r as [o|a].
  - exists []. symmetry. apply app_nil_r.
  - destruct (Hk a log') as (ext & E' & _). exists ext. exact E'.
Qed.

Lemma exit_keeps_log (x : (outcome + bool) * list event) :
  snd (match x with
       | (inl o, l) => (inl o, l)
       | (inr changed, l) => (@inl outcome Empty_set (Exited changed), l)
       end) = snd x.
Proof. destruct x as [[o|b] l]; reflexivity. Qed.

Section Loops.

Variable h : Host.

Lemma present_step_known chk c1 opts inv dev info changed log :
  inv !! dev = Some info ->
  present_step h chk c1 opts inv dev changed log = (inr changed, log).
Proof. intros E. unfold present_step. rewrite E. reflexivity. Qed.

Lemma present_step_create c1 opts inv dev changed log :
  inv !! dev = None ->
  present_step h false c1 opts inv dev changed log =
  (finish (Pvcreate c1 opts dev)
          (run_command h (history log) (render (Pvcreate c1 opts dev))),
   log ++ [(Pvcreate c1 opts dev,
            run_command h (history log) (render (Pvcreate c1 opts dev)))]).
Proof.
  intros E. unfold present_step, finish. rewrite E. run_simpl.
  destruct (run_command h (history log) _) as [[rc out] err]. cbn [fst snd].
  destruct (rc =? 0); reflexivity.
Qed.

Lemma absent_step_unknown chk frc c2 inv dev changed log :
  inv !! dev = None ->
  absent_step h chk frc c2 inv dev changed log = (inr changed, log).
Proof. intros E. unfold absent_step. rewrite E. reflexivity. Qed.

Lemma absent_step_graceful c2 inv dev info changed log :
  inv !! dev = Some info -> unused info ->
  absent_step h false false c2 inv dev changed log =
  (finish (Pvremove c2 dev)
          (run_command h (history log) (render (Pvremove c2 dev))),
   log ++ [(Pvremove c2 dev, run_command h (history log) (render (Pvremove c2 dev)))]).
Proof.
  intros E U. apply unused_spec in U. unfold absent_step, finish. rewrite E. run_simpl.
  cbn [negb]. rewrite U. run_simpl.
  destruct (run_command h (history log) _) as [[rc out] err]. cbn [fst snd].
  destruct (rc =? 0); reflexivity.
Qed.

Lemma absent_step_refuse c2 inv dev info changed log :
  inv !! dev = Some info -> ~ unused info ->
  absent_step h false false c2 inv dev changed log =
  (inl (Failed (msg_refuse dev (vg_name info)) None None), log).
Proof.
  intros E U. rewrite <- unused_spec in U. apply not_true_is_false in U.
  unfold absent_step. rewrite E. run_simpl. cbn [negb]. rewrite U. reflexivity.
Qed.

Lemma absent_step_forced c2 inv dev info changed log :
  inv !! dev = Some info ->
  absent_step h false true c2 inv dev changed log =
  (finish (PvremoveForce c2 dev)
          (run_command h (history log) (render (PvremoveForce c2 dev))),
   log ++ [(PvremoveForce c2 dev,
            run_command h (history log) (render (PvremoveForce c2 dev)))]).
Proof.
  intros E. unfold absent_step, finish. rewrite E. run_simpl. cbn [negb].
  run_simpl.
  destruct (run_command h (history log) _) as [[rc out] err]. cbn [fst snd].
  destruct (rc =? 0); reflexivity.
Qed.

(** Once [changed] is true it stays true. *)
Lemma present_step_keeps chk c1 opts inv dev log b log' :
  present_step h chk c1 opts inv dev true log = (inr b, log') -> b = true.
Proof.
  unfold present_step. destruct (inv !! dev); [intros [= <- _]; reflexivity|].
  run_simpl. destruct chk; run_simpl; [discriminate|].
  destruct (run_command h (history log) _) as [[rc out] err].
  destruct (rc =? 0); [intros [= <- _]; reflexivity | discriminate].
Qed.

Lemma absent_step_keeps chk frc c2 inv dev log b log' :
  absent_step h chk frc c2 inv dev true log = (inr b, log') -> b = true.
Proof.
  unfold absent_step. destruct (inv !! dev) as [info|]; [|intros [= <- _]; reflexivity].
  run_simpl. destruct chk; run_simpl; [discriminate|].
  destruct frc; cbn [negb].
  - run_simpl. destruct (run_command h (history log) _) as [[rc out] err].
    destruct (rc =? 0); [intros [= <- _]; reflexivity | discriminate].
  - destruct (_ && _); [|discriminate]. run_simpl.
    destruct (run_command h (history log) _) as [[rc out] err].
    destruct (rc =? 0); [intros [= <- _]; reflexivity | discriminate].
Qed.

Lemma for_each_keeps {A : Type} (body : A -> bool -> Run bool) :
  (forall a log b log', body a true log = (inr b, log') -> b = true) ->
  forall l log b log', for_each body l true log = (inr b, log') -> b = true.
Proof.
  intros Hb. induction l as [|a l IH]; intros log b log'; simpl.
  - intros [= <- _]. reflexivity.
  - rewrite bind_unfold. destruct (body a true log) as [[o|b'] l'] eqn:E; [discriminate|].
    apply Hb in E. subst b'. apply IH.
Qed.

Lemma for_each_stops {A S : Type} (P : outcome -> Prop) (body : A -> S -> Run S) :
  (forall a s log o log', body a s log = (inl o, log') -> P o) ->
  forall l s log o log', for_each body l s log = (inl o, log') -> P o.
Proof.
  intros Hb. induction l as [|a l IH]; intros s log o log'; simpl; [discriminate|].
  rewrite bind_unfold. destruct (body a s log) as [[o'|s'] l'] eqn:E.
  - intros [= <- _]. eapply Hb; eassumption.
  - apply IH.
Qed.


(** Outside check mode a loop body never exits: it goes on or fails. *)
Lemma present_step_stops c1 opts inv dev changed log o log' :
  present_step h false c1 opts inv dev changed log = (inl o, log') -> is_failure o.
Proof.
  unfold present_step. destruct (inv !! dev); [discriminate|]. run_simpl.
  destruct (run_command h (history log) _) as [[rc out] err].
  destruct (rc =? 0); [discriminate | intros [= <- _]; exact I].
Qed.

Lemma absent_step_stops frc c2 inv dev changed log o log' :
  absent_step h false frc c2 inv dev changed log = (inl o, log') -> is_failure o.
Proof.
  unfold absent_step. destruct (inv !! dev) as [info|]; [|discriminate]. run_simpl.
  destruct frc; cbn [negb].
  - run_simpl. destruct (run_command h (history log) _) as [[rc out] err].
    destruct (rc =? 0); [discriminate | intros [= <- _]; exact I].
  - destruct (_ && _); [|intros [= <- _]; exact I]. run_simpl.
    destruct (run_command h (history log) _) as [[rc out] err].
    destruct (rc =? 0); [discriminate | intros [= <- _]; exact I].
Qed.

(** [reconcile] is its loop followed by [exit_json]. *)
Lemma reconcile_absent pvs0 opts frc chk c1 c2 inv dev_list log :
  reconcile h (Params pvs0 opts absent frc chk) c1 c2 inv dev_list log =
  match for_each (absent_step h chk frc c2 inv) dev_list false log with
  | (inl o, log') => (inl o, log')
  | (inr changed, log') => (inl (Exited changed), log')
  end.
Proof. reflexivity. Qed.

Lemma reconcile_present pvs0 opts frc chk c1 c2 inv dev_list log :
  reconcile h (Params pvs0 opts present frc chk) c1 c2 inv dev_list log =
  match for_each (present_step h chk c1 (PyStr.words opts) inv) dev_list false log with
  | (inl o, log') => (inl o, log')
  | (inr changed, log') => (inl (Exited changed), log')
  end.
Proof. reflexivity. Qed.

End Loops.

(** ** Removal *)

Lemma Demo_snapshot rc : snapshot (Demo.host Demo.listing rc) = Some Demo.inventory.
Proof. destruct rc; vm_compute; reflexivity. Qed.

(** In check mode the free device [/dev/sda1] is requested absent without
    [force], and no [pvremove] is run: the rule of C1 does not hold in every
    run. *)
Lemma C1_check_mode_counterexample :
  ~ graceful_rule_in_every_run
      (Demo.host Demo.listing 0)
      (Params (Some ["/dev/sda1"]) "" absent false true).
Proof.
  intros H.
  assert (Hin : In "/dev/sda1"
                  (requested (Demo.host Demo.listing 0)
                             (Params (Some ["/dev/sda1"]) "" absent false true)))
    by (left; reflexivity).
  assert (Hl : Demo.inventory !! "/dev/sda1" = Some (PvInfo "" "100B" "100B"))
    by (vm_compute; reflexivity).
  destruct (H "/dev/sda1" Demo.inventory (PvInfo "" "100B" "100B")
              eq_refl eq_refl Hin (Demo_snapshot 0) Hl) as [[_ Hinv] _].
  assert (U : unused (PvInfo "" "100B" "100B")) by (split; reflexivity).
  specialize (Hinv U). unfold invoked in Hinv.
  replace (main _ _) with (Exited true, Demo.inventory_log) in Hinv
    by (vm_compute; reflexivity).
  apply Exists_exists in Hinv. destruct Hinv as (e & He & Hf).
  unfold Demo.inventory_log in He.
  repeat (apply elem_of_cons in He as [->|He]; [discriminate Hf|]).
  inversion He.
Qed.

(** C1 (amended).  Outside check mode, with [state=absent] and
    [force=false], when the loop reaches a device that is in the inventory
    (no earlier device ended the run): [pvremove] is run for it, right then,
    if and only if its recorded size equals its recorded free size and its
    group name is empty; otherwise the run fails there with the refusal
    message naming the device's group, and nothing is added to the log. *)
Theorem C1_graceful_removal_outside_check_mode
    (h : Host) (pvs0 : option (list string)) (opts c1 c2 : string)
    (inv : gmap string pv_info) (pre : list string) (dev : string) (post : list string)
    (info : pv_info) (log : list event) (changed : bool) (log' : list event) :
  let p := Params pvs0 opts absent false false in
  let r := reconcile h p c1 c2 inv (pre ++ dev :: post) log in
  for_each (absent_step h false false c2 inv) pre false log = (inr changed, log') ->
  inv !! dev = Some info ->
  ((exists resp rest, snd r = log' ++ (Pvremove c2 dev, resp) :: rest) <-> unused info)
  /\ (~ unused info ->
      r = (inl (Failed (msg_refuse dev (vg_name info)) None None), log')).
Proof.
  intros p r Hpre Hdev.
  assert (Hno : ~ unused info ->
                r = (inl (Failed (msg_refuse dev (vg_name info)) None None), log')).
  { intros U. unfold r, p. rewrite reconcile_absent.
    rewrite (for_each_reaches _ _ _ _ _ _ _ _ Hpre), bind_unfold.
    rewrite (absent_step_refuse _ _ _ _ _ _ _ Hdev U). reflexivity. }
  split; [|exact Hno]. split.
  - intros (resp & rest & E).
    destruct (String.eqb (pv_size info) (pv_free info) && PyStr.is_empty (vg_name info))
      eqn:B; [apply unused_spec; exact B|].
    exfalso. assert (U : ~ unused info).
    { rewrite <- unused_spec, B. discriminate. }
    rewrite (Hno U) in E. simpl in E.
    apply (f_equal length) in E. rewrite length_app in E. simpl in E. lia.
  - intros U. unfold r, p. rewrite reconcile_absent.
    rewrite (for_each_reaches _ _ _ _ _ _ _ _ Hpre).
    pose proof (absent_step_graceful h c2 inv dev info changed log' Hdev U) as Es.
    destruct (bind_log_extends mutating_event _
                (for_each (absent_step h false false c2 inv) post) _ _ _ Es)
      as (ext & Eext).
    { intros a. apply emits_for_each. intros. apply emits_absent_step. }
    exists (run_command h (history log') (render (Pvremove c2 dev))), ext.
    rewrite exit_keeps_log, Eext, <- app_assoc. reflexivity.
Qed.

Lemma C1_graceful_removal_witness :
  let r := reconcile (Demo.host Demo.listing 0)
             (Params (Some ["/dev/sdc1"; "/dev/sdb1"; "/dev/sda1"]) "" absent false false)
             "/sbin/pvcreate" "/sbin/pvremove" Demo.inventory
             (["/dev/sdc1"] ++ "/dev/sdb1" :: ["/dev/sda1"]) Demo.inventory_log in
  r = (inl (Failed (msg_refuse "/dev/sdb1" "vg0") None None), Demo.inventory_log).
Proof.
  intros r.
  destruct (C1_graceful_removal_outside_check_mode
              (Demo.host Demo.listing 0) (Some ["/dev/sdc1"; "/dev/sdb1"; "/dev/sda1"])
              "" "/sbin/pvcreate" "/sbin/pvremove" Demo.inventory
              ["/dev/sdc1"] "/dev/sdb1" ["/dev/sda1"] (PvInfo "vg0" "100B" "0B")
              Demo.inventory_log false Demo.inventory_log) as [_ H].
  - vm_compute. reflexivity.
  - vm_compute. reflexivity.
  - apply H. intros [U _]. discriminate U.
Defined.

(** In check mode the device [/dev/sdb1], in use by [vg0], is requested
    absent with [force]: no [pvremove -ff -y] is run, so the forced removal
    is not run in every such invocation. *)
Lemma C5_check_mode_counterexample :
  ~ forced_rule_in_every_run
      (Demo.host Demo.listing 0)
      (Params (Some ["/dev/sdb1"]) "" absent true true).
Proof.
  intros H.
  assert (Hin : In "/dev/sdb1"
                  (requested (Demo.host Demo.listing 0)
                             (Params (Some ["/dev/sdb1"]) "" absent true true)))
    by (left; reflexivity).
  assert (Hl : Demo.inventory !! "/dev/sdb1" = Some (PvInfo "vg0" "100B" "0B"))
    by (vm_compute; reflexivity).
  specialize (H "/dev/sdb1" Demo.inventory (PvInfo "vg0" "100B" "0B")
                eq_refl eq_refl Hin (Demo_snapshot 0) Hl).
  unfold invoked in H.
  replace (main _ _) with (Exited true, Demo.inventory_log) in H
    by (vm_compute; reflexivity).
  apply Exists_exists in H. destruct H as (e & He & Hf).
  unfold Demo.inventory_log in He.
  repeat (apply elem_of_cons in He as [->|He]; [discriminate Hf|]).
  inversion He.
Qed.

(** C5 (amended).  Outside check mode, with [state=absent] and
    [force=true], when the loop reaches a device that is in the inventory:
    [pvremove -ff -y] is run for it, right then, whatever the inventory
    records about it; if it exits 0, [changed] is true from then on, so a
    run that goes on to exit reports [changed=true]; if it exits non-zero
    the run fails there.  The step is the same for any two inventories that
    both hold the device: the recorded group and sizes are not looked at. *)
Theorem C5_forced_removal_outside_check_mode
    (h : Host) (pvs0 : option (list string)) (opts c1 c2 : string)
    (inv : gmap string pv_info) (pre : list string) (dev : string) (post : list string)
    (info : pv_info) (log : list event) (changed : bool) (log' : list event) :
  let p := Params pvs0 opts absent true false in
  let c := PvremoveForce c2 dev in
  let resp := run_command h (history log') (render c) in
  let r := reconcile h p c1 c2 inv (pre ++ dev :: post) log in
  for_each (absent_step h false true c2 inv) pre false log = (inr changed, log') ->
  inv !! dev = Some info ->
  (exists rest, snd r = log' ++ (c, resp) :: rest)
  /\ (resp.1.1 = 0 ->
      for_each (absent_step h false true c2 inv) (pre ++ [dev]) false log
      = (inr true, log' ++ [(c, resp)])
      /\ forall b, fst r = inl (Exited b) -> b = true)
  /\ (resp.1.1 <> 0 ->
      r = (inl (Failed (msg_remove_failed dev) (Some resp.1.1) (Some resp.2)),
           log' ++ [(c, resp)]))
  /\ (forall inv' info',
        inv' !! dev = Some info' ->
        absent_step h false true c2 inv' dev changed log'
        = absent_step h false true c2 inv dev changed log').
Proof.
  intros p c resp r Hpre Hdev.
  pose proof (absent_step_forced h c2 inv dev info changed log' Hdev) as Es.
  fold c resp in Es.
  assert (Er : r = match (absent_step h false true c2 inv dev changed
                            ≫= for_each (absent_step h false true c2 inv) post) log' with
                   | (inl o, l) => (inl o, l)
                   | (inr b, l) => (inl (Exited b), l)
                   end).
  { unfold r, p. rewrite reconcile_absent, (for_each_reaches _ _ _ _ _ _ _ _ Hpre).
    reflexivity. }
  split; [|split; [|split]].
  - destruct (bind_log_extends mutating_event _
                (for_each (absent_step h false true c2 inv) post) _ _ _ Es)
      as (ext & Eext).
    { intros a. apply emits_for_each. intros. apply emits_absent_step. }
    exists ext. rewrite Er, exit_keeps_log, Eext, <- app_assoc. reflexivity.
  - intros Hrc. assert (Ef : finish c resp = inr true).
    { unfold finish. rewrite Hrc. reflexivity. }
    rewrite Ef in Es. split.
    + rewrite (for_each_reaches _ _ _ _ _ _ _ _ Hpre), bind_unfold, Es. reflexivity.
    + intros b. rewrite Er, bind_unfold, Es.
      destruct (for_each _ post true _) as [[o|b'] l] eqn:El; simpl.
      { intros [= ->]. eapply (for_each_stops is_failure) in El; [destruct El|].
        intros. eapply absent_step_stops; eassumption. }
      intros [= <-].
      eapply for_each_keeps; [|exact El]. intros. eapply absent_step_keeps; eassumption.
  - intros Hrc. rewrite Er, bind_unfold, Es. unfold finish.
    apply Z.eqb_neq in Hrc. rewrite Hrc. reflexivity.
  - intros inv' info' Hdev'.
    rewrite (absent_step_forced h c2 inv' dev info' changed log' Hdev'). symmetry.
    exact Es.
Qed.

Lemma C5_forced_removal_witness :
  fst (reconcile (Demo.host Demo.listing 0)
         (Params (Some ["/dev/sdc1"; "/dev/sdb1"; "/dev/sda1"]) "" absent true false)
         "/sbin/pvcreate" "/sbin/pvremove" Demo.inventory
         (["/dev/sdc1"] ++ "/dev/sdb1" :: ["/dev/sda1"]) Demo.inventory_log)
  = inl (Exited true).
Proof.
  destruct (C5_forced_removal_outside_check_mode
              (Demo.host Demo.listing 0) (Some ["/dev/sdc1"; "/dev/sdb1"; "/dev/sda1"])
              "" "/sbin/pvcreate" "/sbin/pvremove" Demo.inventory
              ["/dev/sdc1"] "/dev/sdb1" ["/dev/sda1"] (PvInfo "vg0" "100B" "0B")
              Demo.inventory_log false Demo.inventory_log) as (_ & H & _).
  - vm_compute. reflexivity.
  - vm_compute. reflexivity.
  - destruct H as [_ H]; [reflexivity|].
    destruct (fst (reconcile _ _ _ _ _ _ _)) as [[b| |]|[]] eqn:E;
      try (vm_compute in E; discriminate E).
    rewrite (H b eq_refl). reflexivity.
Defined.

(** ** Creation *)

Section Creation.

Variable h : Host.

(** When [pvcreate] never fails, the loop of [state=present] runs to its
    end, and [changed] tells whether some device was not in the inventory. *)
Lemma present_loop_works c1 opts inv :
  pvcreate_works h ->
  forall dev_list changed log,
  exists log',
    for_each (present_step h false c1 opts inv) dev_list changed log
    = (inr (changed || negb (forallb (satisfied present inv) dev_list)), log').
Proof.
  intros Hw. induction dev_list as [|d l IH]; intros changed log.
  - exists log. simpl. rewrite orb_false_r. reflexivity.
  - cbn [for_each forallb]. rewrite bind_unfold. unfold satisfied at 1.
    destruct (inv !! d) as [info|] eqn:E.
    + rewrite (present_step_known _ _ _ _ _ _ _ _ _ E). apply IH.
    + rewrite (present_step_create _ _ _ _ _ _ _ E). unfold finish.
      rewrite Hw. cbn [Z.eqb andb negb].
      destruct (IH true (log ++ [(Pvcreate c1 opts d,
                  run_command h (history log) (render (Pvcreate c1 opts d)))]))
        as (log' & E').
      exists log'. rewrite E', orb_true_r. reflexivity.
Qed.

(** A loop over devices that all are in the inventory does nothing. *)
Lemma present_loop_idle chk c1 opts inv dev_list changed log :
  Forall (fun d => is_Some (inv !! d)) dev_list ->
  for_each (present_step h chk c1 opts inv) dev_list changed log = (inr changed, log).
Proof.
  induction 1 as [|d l [info Hd] Hl IH]; [reflexivity|].
  cbn [for_each]. rewrite bind_unfold, (present_step_known _ _ _ _ _ _ _ _ _ Hd).
  exact IH.
Qed.

End Creation.

(** In check mode [/dev/sdc1], which is not in the inventory, is requested
    present: the run reports [changed=true] and [pvcreate] is not run, so
    the creation is not run once in every such invocation. *)
Lemma C6_check_mode_counterexample :
  ~ creation_rule_in_every_run
      (Demo.host Demo.listing 0)
      (Params (Some ["/dev/sdc1"]) "" present false true).
Proof.
  intros H.
  assert (Hin : In "/dev/sdc1"
                  (requested (Demo.host Demo.listing 0)
                             (Params (Some ["/dev/sdc1"]) "" present false true)))
    by (left; reflexivity).
  assert (Hl : Demo.inventory !! "/dev/sdc1" = None) by (vm_compute; reflexivity).
  destruct (H "/dev/sdc1" Demo.inventory eq_refl Hin (Demo_snapshot 0) Hl) as [Hn _].
  replace (main _ _) with (Exited true, Demo.inventory_log) in Hn
    by (vm_compute; reflexivity).
  vm_compute in Hn. discriminate Hn.
Qed.

(** C6 (amended).  Under [state=present]: a device that is in the inventory
    costs no command and leaves [changed] as it was, in check mode or not.
    Outside check mode, each entry of the list that is not in the inventory
    gets, when the loop reaches it, one [pvcreate], appended to the log;
    exit code 0 makes [changed] true, another one fails the run.  Hence, on a
    host whose [pvcreate] succeeds, a run in which some requested device is
    not in the inventory exits with [changed=true], and a later run whose
    inventory holds, besides the former entries, all requested devices exits
    with [changed=false] and runs nothing. *)
Theorem C6_present_is_idempotent
    (h h' : Host) (pvs0 : option (list string)) (opts c1 c2 : string) (frc chk' : bool)
    (inv inv' : gmap string pv_info) (dev_list : list string) (log log' : list event) :
  (forall chk dev info changed l,
      inv !! dev = Some info ->
      present_step h chk c1 (PyStr.words opts) inv dev changed l = (inr changed, l))
  /\ (forall dev changed l,
        inv !! dev = None ->
        let c := Pvcreate c1 (PyStr.words opts) dev in
        let resp := run_command h (history l) (render c) in
        present_step h false c1 (PyStr.words opts) inv dev changed l
        = (finish c resp, l ++ [(c, resp)]))
  /\ (pvcreate_works h ->
      Exists (fun d => inv !! d = None) dev_list ->
      dom inv' = dom inv ∪ list_to_set dev_list ->
      fst (reconcile h (Params pvs0 opts present frc false) c1 c2 inv dev_list log)
      = inl (Exited true)
      /\ reconcile h' (Params pvs0 opts present frc chk') c1 c2 inv' dev_list log'
         = (inl (Exited false), log')).
Proof.
  split; [|split].
  - intros chk dev info changed l E. apply present_step_known with info. exact E.
  - intros dev changed l E. apply present_step_create. exact E.
  - intros Hw Hex Hdom. split.
    + rewrite reconcile_present.
      destruct (present_loop_works h c1 (PyStr.words opts) inv Hw dev_list false log)
        as (l & El).
      rewrite El. simpl. do 2 f_equal.
      apply negb_true_iff, not_true_is_false. intros Hall.
      rewrite forallb_forall in Hall. apply Exists_exists in Hex.
      destruct Hex as (d & Hd & Hnone).
      specialize (Hall d (proj1 (list_elem_of_In _ _) Hd)).
      unfold satisfied in Hall. rewrite Hnone in Hall. discriminate.
    + rewrite reconcile_present, present_loop_idle; [reflexivity|].
      apply Forall_forall. intros d Hd. apply elem_of_dom. rewrite Hdom.
      apply elem_of_union_r, elem_of_list_to_set. exact Hd.
Qed.

Lemma C6_present_is_idempotent_witness :
  let devs := ["/dev/sda1"; "/dev/sdc1"] in
  let inv' := <["/dev/sdc1" := PvInfo "" "100B" "100B"]> Demo.inventory in
  fst (reconcile (Demo.host Demo.listing 0) (Params (Some devs) "" present false false)
         "/sbin/pvcreate" "/sbin/pvremove" Demo.inventory devs Demo.inventory_log)
  = inl (Exited true)
  /\ reconcile (Demo.host Demo.listing 0) (Params (Some devs) "" present false false)
       "/sbin/pvcreate" "/sbin/pvremove" inv' devs Demo.inventory_log
     = (inl (Exited false), Demo.inventory_log).
Proof.
  intros devs inv'.
  apply (C6_present_is_idempotent (Demo.host Demo.listing 0) (Demo.host Demo.listing 0)
           (Some devs) "" "/sbin/pvcreate" "/sbin/pvremove" false false
           Demo.inventory inv' devs Demo.inventory_log Demo.inventory_log).
  - intros hist cmd options dev. reflexivity.
  - apply Exists_cons_tl, Exists_cons_hd. vm_compute. reflexivity.
  - vm_compute. reflexivity.
Defined.

(** ** Failing commands *)


Section Faithful.

Variable h : Host.

Lemma kf_ret {A : Type} (a : A) : keeps_faithful h (mret a).
Proof. intros log H. exact H. Qed.

Lemma kf_stop {A : Type} (o : outcome) : keeps_faithful h (@stop A o).
Proof. intros log H. exact H. Qed.

Lemma kf_bind {A B : Type} (m : Run A) (k : A -> Run B) :
  keeps_faithful h m -> (forall a, keeps_faithful h (k a)) ->
  keeps_faithful h (m ≫= k).
Proof.
  intros Hm Hk log H. rewrite bind_unfold. specialize (Hm log H).
  destruct (m log) as [[o|a] log']; [exact Hm|]. apply Hk. exact Hm.
Qed.

Lemma kf_for_each {A S : Type} (body : A -> S -> Run S) l :
  (forall a s, keeps_faithful h (body a s)) ->
  forall s, keeps_faithful h (for_each body l s).
Proof.
  intros Hb. induction l as [|a l IH]; intros s; simpl.
  - apply kf_ret.
  - apply kf_bind; [apply Hb | apply IH].
Qed.

Lemma faithful_snoc log c :
  faithful h log ->
  faithful h (log ++ [(c, run_command h (history log) (render c))]).
Proof.
  intros H t1 e t2 E.
  destruct t2 as [|x t2 _] using rev_ind.
  - apply app_inj_tail in E as [-> <-]. reflexivity.
  - rewrite app_comm_cons, app_assoc in E. apply app_inj_tail in E as [E _].
    apply (H _ _ _ E).
Qed.

Lemma kf_run_cmd c : keeps_faithful h (run_cmd h c).
Proof. intros log H. apply faithful_snoc. exact H. Qed.

End Faithful.

(** Prove [keeps_faithful] by following the structure of the computation. *)
Ltac keeps_faithful_tac :=
  repeat first
    [ apply kf_ret | apply kf_stop | apply kf_run_cmd
    | apply kf_for_each; intros
    | apply kf_bind; [|intros]
    | match goal with
      | |- keeps_faithful _ (match ?x with _ => _ end) => destruct x
      end ].

Lemma kf_main_run h p : keeps_faithful h (main_run h p).
Proof.
  unfold main_run, requested_devices, check_devices, read_inventory, reconcile,
    parse_pvs, get_bin_path_required, fail_json, exit_json, raise.
  keeps_faithful_tac;
    unfold parse_line, present_step, absent_step, index, find_mapper_device_name,
      get_bin_path_required, fail_json, exit_json, raise;
    keeps_faithful_tac.
Qed.

Lemma main_log_faithful h p : faithful h (snd (main h p)).
Proof.
  rewrite main_eq. pose proof (kf_main_run h p [] ) as H.
  destruct (main_run h p []) as [[o|[]] log]. apply H.
  intros t1 e t2 E. destruct t1; discriminate E.
Qed.


Lemma fails_at_app ext1 ext2 o :
  Forall succeeded ext1 -> fails_at ext2 o -> fails_at (ext1 ++ ext2) o.
Proof.
  intros H1 (ext' & c & rc & out & err & -> & Hc & Hm & Hrc & ->).
  exists (ext1 ++ ext'), c, rc, out, err. rewrite app_assoc.
  repeat split; try assumption. apply Forall_app; split; assumption.
Qed.

Lemma fc_ret {A : Type} (a : A) : fail_closed (mret a).
Proof. intros log. exists []. split; [symmetry; apply app_nil_r | constructor]. Qed.

Lemma fc_stop {A : Type} (o : outcome) : fail_closed (@stop A o).
Proof.
  intros log. exists []. split; [symmetry; apply app_nil_r | left; constructor].
Qed.

Lemma fc_bind {A B : Type} (m : Run A) (k : A -> Run B) :
  fail_closed m -> (forall a, fail_closed (k a)) -> fail_closed (m ≫= k).
Proof.
  intros Hm Hk log. rewrite bind_unfold. destruct (Hm log) as (ext & E & H).
  destruct (m log) as [[o|a] log']; simpl in E, H; subst log'.
  - exists ext. split; [reflexivity | exact H].
  - destruct (Hk a (log ++ ext)) as (ext' & E' & H').
    exists (ext ++ ext'). rewrite E', app_assoc. split; [reflexivity|].
    destruct (fst (k a (log ++ ext))) as [o|b].
    + destruct H' as [H'|H'].
      * left. apply Forall_app; split; assumption.
      * right. apply fails_at_app; assumption.
    + apply Forall_app; split; assumption.
Qed.

Lemma fc_for_each {A S : Type} (body : A -> S -> Run S) l :
  (forall a s, fail_closed (body a s)) -> forall s, fail_closed (for_each body l s).
Proof.
  intros Hb. induction l as [|a l IH]; intros s; simpl.
  - apply fc_ret.
  - apply fc_bind; [apply Hb | apply IH].
Qed.

(** A computation that runs no mutating command is fail-closed. *)
Lemma fc_of_emits {A : Type} (m : Run A) :
  emits (fun e => is_mutating (fst e) = false) m -> fail_closed m.
Proof.
  intros Hm log. destruct (Hm log) as (ext & E & F). exists ext. split; [exact E|].
  assert (Forall succeeded ext).
  { eapply Forall_impl; [exact F|]. intros e He Hmut. congruence. }
  destruct (fst (m log)); [left|]; assumption.
Qed.

Section FailClosed.

Variable h : Host.

(** Run a mutating command and go on only if it exits 0. *)
Lemma fc_mutation (c : command) :
  is_mutating c = true ->
  fail_closed
    (run_cmd h c ≫= fun '(rc, _, err) =>
       if rc =? 0 then mret true else fail_json (failure_msg c) (Some rc) (Some err)).
Proof.
  intros Hc log. run_simpl.
  exists [(c, run_command h (history log) (render c))].
  destruct (run_command h (history log) (render c)) as [[rc out] err].
  destruct (Z.eqb_spec rc 0) as [->|Hrc]; (split; [reflexivity|]); cbn [fst].
  - constructor; [|constructor]. intros _. reflexivity.
  - right. exists [], c, rc, out, err. repeat split; try assumption. constructor.
Qed.

Lemma fc_present_step chk c1 opts inv dev changed :
  fail_closed (present_step h chk c1 opts inv dev changed).
Proof.
  unfold present_step. destruct (inv !! dev); [apply fc_ret|].
  apply fc_bind; [destruct chk; [apply fc_stop | apply fc_ret]|]. intros _.
  apply (fc_mutation (Pvcreate c1 opts dev)). reflexivity.
Qed.

Lemma fc_absent_step chk frc c2 inv dev changed :
  fail_closed (absent_step h chk frc c2 inv dev changed).
Proof.
  unfold absent_step. destruct (inv !! dev) as [info|]; [|apply fc_ret].
  apply fc_bind; [destruct chk; [apply fc_stop | apply fc_ret]|]. intros _.
  destruct frc; cbn [negb].
  - apply (fc_mutation (PvremoveForce c2 dev)). reflexivity.
  - destruct (_ && _); [|apply fc_stop].
    apply (fc_mutation (Pvremove c2 dev)). reflexivity.
Qed.

Lemma fc_reconcile p c1 c2 inv dev_list :
  fail_closed (reconcile h p c1 c2 inv dev_list).
Proof.
  unfold reconcile. apply fc_bind; [|intros; apply fc_stop].
  destruct (state p); apply fc_for_each; intros;
    [apply fc_present_step | apply fc_absent_step].
Qed.

Lemma fc_main_run p : fail_closed (main_run h p).
Proof.
  unfold main_run.
  apply fc_bind.
  { apply fc_of_emits. intros log. exists []. rewrite requested_devices_eq.
    split; [symmetry; apply app_nil_r | constructor]. }
  intros dev_list. apply fc_bind; [apply fc_of_emits, emits_check_devices|]. intros _.
  apply fc_bind; [|intros [[c1 c2] inv]; apply fc_reconcile].
  apply fc_of_emits. unfold read_inventory.
  repeat (apply emits_bind; [apply emits_get_bin_path_required|]; intros ?).
  apply emits_bind; [apply emits_run_cmd; reflexivity|].
  intros [[rc out] err]. apply emits_if; [apply emits_stop|].
  apply emits_bind; [|intros; apply emits_ret].
  eapply emits_weaken; [|apply emits_parse_pvs].
  intros [c r] He. destruct c; try discriminate He; reflexivity.
Qed.

End FailClosed.

(** C8.  When the log of a run holds a [pvcreate] or [pvremove] that exited
    non-zero (the exit code being the host's answer at that point), it is the
    last command of the run: nothing was run after it, for this device or a
    later one.  The run ended with [fail_json], not with a [changed] result,
    carrying the message that names the device, the command's exit code and
    its error output.  The mutating commands before it all exited 0 and stay
    in the log as they were: nothing is run to undo them. *)
Theorem C8_mutation_failure_is_fatal
    (h : Host) (p : params) (t1 : list event) (c : command) (resp : response)
    (t2 : list event) :
  snd (main h p) = t1 ++ (c, resp) :: t2 ->
  is_mutating c = true ->
  resp.1.1 <> 0 ->
  resp = run_command h (history t1) (render c)
  /\ t2 = []
  /\ fst (main h p) = Failed (failure_msg c) (Some resp.1.1) (Some resp.2)
  /\ Forall succeeded t1.
Proof.
  intros E Hc Hrc. split.
  { apply (main_log_faithful h p _ _ _ E). }
  destruct (fc_main_run h p []) as (ext & Eext & H).
  revert E. rewrite main_eq.
  destruct (main_run h p []) as [[o|[]] log]. cbn [fst snd] in *. subst log.
  intros E. cbn [app] in E. subst ext.
  assert (Hbad : ~ Forall succeeded (t1 ++ (c, resp) :: t2)).
  { intros F. apply Forall_app in F as [_ F]. inversion F as [|? ? Hs _]; subst.
    apply Hrc, Hs, Hc. }
  destruct H as [H|(ext' & c' & rc & out & err & E & Hclean & Hc' & Hrc' & ->)];
    [contradiction|].
  destruct t2 as [|x t2 _] using rev_ind.
  - apply app_inj_tail in E as [-> [= -> ->]]. repeat split. exact Hclean.
  - exfalso. rewrite app_comm_cons, app_assoc in E. apply app_inj_tail in E as [<- _].
    apply Hbad. apply Forall_app in Hclean as [H1 H2].
    apply Forall_app; split; [exact H1|].
    exfalso. inversion H2 as [|? ? Hs _]; subst. apply Hrc, Hs, Hc.
Qed.

Lemma C8_mutation_failure_witness :
  fst (main (Demo.host Demo.listing 1)
            (Params (Some ["/dev/sdc1"; "/dev/sdd1"]) "" present false false))
  = Failed "Creating physical volume '/dev/sdc1' failed" (Some 1) (Some "pvcreate said no").
Proof.
  destruct (C8_mutation_failure_is_fatal
              (Demo.host Demo.listing 1)
              (Params (Some ["/dev/sdc1"; "/dev/sdd1"]) "" present false false)
              Demo.inventory_log (Pvcreate "/sbin/pvcreate" [] "/dev/sdc1")
              (1, "", "pvcreate said no") []) as (_ & _ & H & _).
  - vm_compute. reflexivity.
  - reflexivity.
  - simpl. lia.
  - exact H.
Defined.

(** ** One inventory per run *)

Section Plan.

Variable h : Host.

Lemma present_loop_follows_plan p c1 c2 inv :
  state p = present ->
  forall dev_list changed log,
  exists ext,
    snd (for_each (present_step h (check_mode p) c1 (PyStr.words (pv_options p)) inv)
           dev_list changed log) = log ++ ext
    /\ map fst ext `prefix_of` plan p c1 c2 inv dev_list.
Proof.
  intros Hst. induction dev_list as [|d l IH]; intros changed log.
  - exists []. split; [symmetry; apply app_nil_r | apply prefix_nil].
  - cbn [for_each plan]. rewrite Hst, bind_unfold.
    destruct (inv !! d) as [info|] eqn:E.
    + rewrite (present_step_known _ _ _ _ _ _ _ _ _ E). apply IH.
    + destruct (check_mode p).
      * exists []. unfold present_step. rewrite E. run_simpl.
        split; [symmetry; apply app_nil_r | apply prefix_nil].
      * rewrite (present_step_create _ _ _ _ _ _ _ E).
        set (c := Pvcreate c1 (PyStr.words (pv_options p)) d).
        set (resp := run_command h (history log) (render c)).
        destruct (finish c resp) as [o|b].
        -- exists [(c, resp)]. split; [reflexivity|].
           apply prefix_cons, prefix_nil.
        -- destruct (IH b (log ++ [(c, resp)])) as (ext & Eext & Hp).
           exists ((c, resp) :: ext). rewrite Eext, <- app_assoc.
           split; [reflexivity|]. apply prefix_cons. exact Hp.
Qed.

Lemma absent_loop_follows_plan p c1 c2 inv :
  state p = absent ->
  forall dev_list changed log,
  exists ext,
    snd (for_each (absent_step h (check_mode p) (force p) c2 inv) dev_list changed log)
    = log ++ ext
    /\ map fst ext `prefix_of` plan p c1 c2 inv dev_list.
Proof.
  intros Hst. induction dev_list as [|d l IH]; intros changed log.
  - exists []. split; [symmetry; apply app_nil_r | apply prefix_nil].
  - cbn [for_each plan]. rewrite Hst, bind_unfold.
    destruct (inv !! d) as [info|] eqn:E.
    2: { rewrite (absent_step_unknown _ _ _ _ _ _ _ _ E). apply IH. }
    destruct (check_mode p).
    { exists []. unfold absent_step. rewrite E. run_simpl.
      split; [symmetry; apply app_nil_r | apply prefix_nil]. }
    destruct (force p).
    + rewrite (absent_step_forced _ _ _ _ _ _ _ E).
      set (c := PvremoveForce c2 d).
      set (resp := run_command h (history log) (render c)).
      destruct (finish c resp) as [o|b].
      * exists [(c, resp)]. split; [reflexivity|]. apply prefix_cons, prefix_nil.
      * destruct (IH b (log ++ [(c, resp)])) as (ext & Eext & Hp).
        exists ((c, resp) :: ext). rewrite Eext, <- app_assoc.
        split; [reflexivity|]. apply prefix_cons. exact Hp.
    + destruct (String.eqb (pv_size info) (pv_free info)
                && PyStr.is_empty (vg_name info)) eqn:B.
      * rewrite (absent_step_graceful _ _ _ _ _ _ _ E (proj1 (unused_spec _) B)).
        set (c := Pvremove c2 d).
        set (resp := run_command h (history log) (render c)).
        destruct (finish c resp) as [o|b].
        -- exists [(c, resp)]. split; [reflexivity|]. apply prefix_cons, prefix_nil.
        -- destruct (IH b (log ++ [(c, resp)])) as (ext & Eext & Hp).
           exists ((c, resp) :: ext). rewrite Eext, <- app_assoc.
           split; [reflexivity|]. apply prefix_cons. exact Hp.
      * assert (U : ~ unused info) by (rewrite <- unused_spec, B; discriminate).
        rewrite (absent_step_refuse _ _ _ _ _ _ _ E U).
        exists []. split; [symmetry; apply app_nil_r | apply prefix_nil].
Qed.

Lemma reconcile_follows_plan p c1 c2 inv dev_list log :
  exists ext,
    snd (reconcile h p c1 c2 inv dev_list log) = log ++ ext
    /\ map fst ext `prefix_of` plan p c1 c2 inv dev_list.
Proof.
  unfold reconcile. rewrite bind_unfold.
  destruct (state p) eqn:Hst.
  - destruct (present_loop_follows_plan p c1 c2 inv Hst dev_list false log)
      as (ext & E & Hp).
    exists ext. split; [|exact Hp].
    destruct (for_each _ dev_list false log) as [[o|b] l]; exact E.
  - destruct (absent_loop_follows_plan p c1 c2 inv Hst dev_list false log)
      as (ext & E & Hp).
    exists ext. split; [|exact Hp].
    destruct (for_each _ dev_list false log) as [[o|b] l]; exact E.
Qed.

End Plan.

Section Script.

Variable h : Host.

Lemma forallb_false_split {A : Type} (f : A -> bool) (l : list A) :
  forallb f l = false ->
  exists pre d post,
    l = pre ++ d :: post /\ Forall (fun x => f x = true) pre /\ f d = false.
Proof.
  induction l as [|a l IH]; [discriminate|]. cbn [forallb].
  destruct (f a) eqn:Ea.
  - intros Hl. destruct (IH Hl) as (pre & d & post & -> & Hpre & Hd).
    exists (a :: pre), d, post. repeat split; [constructor|]; assumption.
  - intros _. exists [], a, l. repeat split; [constructor | exact Ea].
Qed.

Lemma read_inventory_missing log :
  found h "pvs" && found h "pvcreate" && found h "pvremove" = false ->
  exists o, read_inventory h log = (inl o, log).
Proof.
  unfold found, read_inventory, get_bin_path_required.
  destruct (get_bin_path h "pvs"); [|eauto].
  destruct (get_bin_path h "pvcreate"); [|eauto].
  destruct (get_bin_path h "pvremove"); [discriminate | eauto].
Qed.

Lemma read_inventory_found log :
  found h "pvs" && found h "pvcreate" && found h "pvremove" = true ->
  exists pvs_cmd rc out err dms,
    get_bin_path h "pvs" = Some pvs_cmd
    /\ (rc, out, err) = run_command h (history log) (render (Pvs pvs_cmd))
    /\ snd (read_inventory h log) = log ++ (Pvs pvs_cmd, (rc, out, err)) :: dms
    /\ Forall dmsetup_event dms
    /\ (rc <> 0 ->
        read_inventory h log
        = (inl (Failed msg_pvs_failed (Some rc) (Some err)),
           log ++ [(Pvs pvs_cmd, (rc, out, err))])).
Proof.
  unfold found, read_inventory, get_bin_path_required.
  destruct (get_bin_path h "pvs") as [pvs_cmd|]; [|discriminate].
  destruct (get_bin_path h "pvcreate") as [c1|]; [|discriminate].
  destruct (get_bin_path h "pvremove") as [c2|]; [|discriminate].
  intros _. run_simpl. exists pvs_cmd.
  destruct (run_command h (history log) (render (Pvs pvs_cmd))) as [[rc out] err].
  exists rc, out, err.
  destruct (Z.eqb_spec rc 0) as [->|Hrc]; cbn [negb]; run_simpl.
  - destruct (emits_parse_pvs h out (log ++ [(Pvs pvs_cmd, (0, out, err))]))
      as (dms & E & F).
    exists dms.
    destruct (parse_pvs h out _) as [[o|inv] l]; simpl in *; subst l;
      rewrite <- app_assoc;
      (split; [reflexivity|]); (split; [reflexivity|]); (split; [reflexivity|]);
      (split; [assumption|]); intros Hz; exfalso; apply Hz; reflexivity.
  - exists []. repeat split; constructor.
Qed.

Lemma prepare_snapshot p dev_list c1 c2 inv log0 :
  prepare h p [] = (inr (dev_list, c1, c2, inv), log0) -> snapshot h = Some inv.
Proof.
  unfold prepare, snapshot. rewrite bind_unfold, requested_devices_eq.
  destruct (match pvs p with Some (dev :: devs) => _ | _ => _ end) as [o|dl];
    [discriminate|].
  run_simpl.
  pose proof (emits_nothing _ [] (emits_check_devices h _ (state p) dl)) as Hc.
  destruct (check_devices h (state p) dl []) as [[o|u] l2]; simpl in Hc; subst l2;
    [discriminate|].
  run_simpl. destruct (read_inventory h []) as [[o|[[t1 t2] i]] l3]; [discriminate|].
  intros [= _ _ _ <- _]. reflexivity.
Qed.

(** Outside check mode the loops carry out the script. *)
Lemma present_loop_script l o f c1 c2 inv :
  forall dev_list changed log,
    for_each (present_step h false c1 (PyStr.words o) inv) dev_list changed log
    = follow h (script (Params l o present f false) c1 c2 inv dev_list) changed log.
Proof.
  induction dev_list as [|d ds IH]; intros changed log; [reflexivity|].
  cbn [for_each script state pv_options]. rewrite bind_unfold.
  destruct (inv !! d) as [info|] eqn:E.
  - rewrite (present_step_known _ _ _ _ _ _ _ _ _ E). apply IH.
  - rewrite (present_step_create _ _ _ _ _ _ _ E). cbn [follow]. run_simpl.
    unfold finish.
    destruct (run_command h (history log) _) as [[rc out] err]. cbn [fst snd].
    destruct (rc =? 0); [apply IH | reflexivity].
Qed.

Lemma absent_loop_script l o f c1 c2 inv :
  forall dev_list changed log,
    for_each (absent_step h false f c2 inv) dev_list changed log
    = follow h (script (Params l o absent f false) c1 c2 inv dev_list) changed log.
Proof.
  induction dev_list as [|d ds IH]; intros changed log; [reflexivity|].
  cbn [for_each script state force]. rewrite bind_unfold.
  destruct (inv !! d) as [info|] eqn:E.
  2: { rewrite (absent_step_unknown _ _ _ _ _ _ _ _ E). apply IH. }
  destruct f.
  - rewrite (absent_step_forced _ _ _ _ _ _ _ E). cbn [follow]. run_simpl.
    unfold finish.
    destruct (run_command h (history log) _) as [[rc out] err]. cbn [fst snd].
    destruct (rc =? 0); [apply IH | reflexivity].
  - destruct (String.eqb (pv_size info) (pv_free info)
              && PyStr.is_empty (vg_name info)) eqn:B.
    + rewrite (absent_step_graceful _ _ _ _ _ _ _ E (proj1 (unused_spec _) B)).
      cbn [follow]. run_simpl. unfold finish.
      destruct (run_command h (history log) _) as [[rc out] err]. cbn [fst snd].
      destruct (rc =? 0); [apply IH | reflexivity].
    + assert (U : ~ unused info) by (rewrite <- unused_spec, B; discriminate).
      rewrite (absent_step_refuse _ _ _ _ _ _ _ E U). reflexivity.
Qed.

(** The script is empty exactly when every device is in the desired state. *)
Lemma script_nonempty p c1 c2 inv dev_list :
  nonempty (script p c1 c2 inv dev_list)
  = negb (forallb (satisfied (state p) inv) dev_list).
Proof.
  induction dev_list as [|d ds IH]; [reflexivity|].
  cbn [script forallb]. unfold satisfied at 1.
  destruct (state p), (inv !! d) as [info|]; try exact IH; try reflexivity.
  destruct (force p); [reflexivity|]. destruct (_ && _); reflexivity.
Qed.

Lemma main_script p dev_list c1 c2 inv log :
  prepare h p [] = (inr (dev_list, c1, c2, inv), log) ->
  main h p
  = if check_mode p
    then (Exited (nonempty (script p c1 c2 inv dev_list)), log)
    else conclude (follow h (script p c1 c2 inv dev_list) false log).
Proof.
  intros E. rewrite (main_after_prepare _ _ _ _ _ _ _ E). clear E.
  destruct p as [l o st f chk]. cbn [check_mode]. destruct chk.
  - rewrite check_reconcile, script_nonempty. reflexivity.
  - destruct st.
    + rewrite reconcile_present, present_loop_script with (l := l) (f := f) (c2 := c2).
      destruct (follow h _ false log) as [[x|b] l']; reflexivity.
    + rewrite reconcile_absent, absent_loop_script with (l := l) (o := o) (c1 := c1).
      destruct (follow h _ false log) as [[x|b] l']; reflexivity.
Qed.

(** A run that does not get to the listing runs nothing. *)
Lemma main_before_listing p : reaches_listing h p = false -> snd (main h p) = [].
Proof.
  unfold reaches_listing. intros Hr.
  rewrite main_eq, main_run_eq, requested_devices_eq.
  destruct (pvs p) as [[|d l]|]; try (destruct (state p); reflexivity).
  pose proof (emits_nothing _ [] (emits_check_devices h _ (state p)
                                    (map (realpath h) (d :: l)))) as Hc.
  destruct (check_devices h (state p) (map (realpath h) (d :: l)) [])
    as [[o|u] l2] eqn:Ec; simpl in Hc; subst l2; [reflexivity|].
  rewrite <- !andb_assoc, (andb_assoc (found h "pvs")) in Hr.
  destruct (found h "pvs" && found h "pvcreate" && found h "pvremove") eqn:Ht.
  - exfalso. rewrite andb_true_r in Hr. destruct (state p); [|discriminate Hr].
    destruct (forallb_false_split _ _ Hr) as (pre & x & post & Hl & Hpre & Hx).
    rewrite Hl, (check_devices_present_missing h _ _ _ _ Hpre Hx) in Ec. discriminate.
  - destruct (read_inventory_missing [] Ht) as (o & ->). reflexivity.
Qed.

(** A run that gets to the listing starts with it and never lists again. *)
Lemma main_from_listing p :
  reaches_listing h p = true ->
  exists pvs_cmd rc out err dms muts,
    get_bin_path h "pvs" = Some pvs_cmd
    /\ (rc, out, err) = run_command h [] (render (Pvs pvs_cmd))
    /\ snd (main h p) = (Pvs pvs_cmd, (rc, out, err)) :: dms ++ muts
    /\ Forall dmsetup_event dms
    /\ Forall mutating_event muts
    /\ (rc <> 0 ->
        main h p = (Failed msg_pvs_failed (Some rc) (Some err),
                    [(Pvs pvs_cmd, (rc, out, err))])).
Proof.
  unfold reaches_listing. intros Hr.
  rewrite main_eq, main_run_eq, requested_devices_eq.
  destruct (pvs p) as [[|d l]|]; try discriminate Hr.
  rewrite <- !andb_assoc, (andb_assoc (found h "pvs")) in Hr.
  apply andb_true_iff in Hr as [Hex Ht].
  assert (Ec : check_devices h (state p) (map (realpath h) (d :: l)) [] = (inr tt, [])).
  { destruct (state p); [|reflexivity]. apply check_devices_present_ok.
    apply Forall_forall. intros x Hx. rewrite forallb_forall in Hex.
    apply Hex, list_elem_of_In, Hx. }
  rewrite Ec.
  destruct (read_inventory_found [] Ht)
    as (pvs_cmd & rc & out & err & dms & Hcmd & Hresp & E & Fd & Hf).
  exists pvs_cmd, rc, out, err.
  destruct (read_inventory h []) as [[o|[[c1 c2] inv]] l3] eqn:Er; simpl in E; subst l3.
  - exists dms, []. rewrite app_nil_r. simpl.
    repeat split; try assumption; try constructor.
    intros Hrc. specialize (Hf Hrc). simpl in Hf. inversion Hf; subst. reflexivity.
  - destruct (emits_reconcile h p c1 c2 inv (map (realpath h) (d :: l))
                ((Pvs pvs_cmd, (rc, out, err)) :: dms)) as (muts & E & Fm).
    exists dms, muts.
    destruct (reconcile h p c1 c2 inv _ _) as [[o|[]] l4]; simpl in *; subst l4.
    repeat split; try assumption.
    intros Hrc. specialize (Hf Hrc). discriminate.
Qed.

End Script.

(** A request for a device that does not exist fails before the listing:
    the listing command is not run once in every invocation. *)
Lemma C9_no_listing_counterexample :
  ~ listed_once (Demo.host Demo.listing 0)
      (Params (Some ["/dev/nope"]) "" present false false).
Proof. vm_compute. discriminate. Qed.

(** C9 (amended).  A run that fails the checks on the request or does not
    find the three tools runs no command at all.  Every other run starts
    with the one listing command, answered by the host before anything else
    was run, followed by [dmsetup] lookups and then by mutating commands
    only: the listing is never run again; if it exits non-zero the run fails
    with its exit code and error output and nothing else is run.  Once the
    inventory is built, it is the one read at the start, and the rest of the
    run is the carrying out of a script of decisions computed from that
    inventory alone, one decision per device not in the desired state, in
    the order of the list: outside check mode each command of the script is
    run until one fails or a refusal is met; in check mode the run exits
    with [changed] true exactly when the script is not empty. *)
Theorem C9_inventory_read_once (h : Host) (p : params) :
  (reaches_listing h p = false -> snd (main h p) = [])
  /\ (reaches_listing h p = true ->
      exists pvs_cmd rc out err dms muts,
        get_bin_path h "pvs" = Some pvs_cmd
        /\ (rc, out, err) = run_command h [] (render (Pvs pvs_cmd))
        /\ snd (main h p) = (Pvs pvs_cmd, (rc, out, err)) :: dms ++ muts
        /\ Forall dmsetup_event dms
        /\ Forall mutating_event muts
        /\ (rc <> 0 ->
            main h p = (Failed msg_pvs_failed (Some rc) (Some err),
                        [(Pvs pvs_cmd, (rc, out, err))])))
  /\ (forall dev_list c1 c2 inv log,
        prepare h p [] = (inr (dev_list, c1, c2, inv), log) ->
        snapshot h = Some inv
        /\ main h p
           = if check_mode p
             then (Exited (nonempty (script p c1 c2 inv dev_list)), log)
             else conclude (follow h (script p c1 c2 inv dev_list) false log)).
Proof.
  split; [|split].
  - apply main_before_listing.
  - apply main_from_listing.
  - intros dev_list c1 c2 inv log E. split.
    + eapply prepare_snapshot. exact E.
    + apply main_script. exact E.
Qed.

Lemma C9_inventory_read_once_witness :
  main (Demo.host Demo.listing 0)
       (Params (Some ["/dev/sdc1"; "/dev/sda1"; "/dev/sdc1"]) "" present false false)
  = conclude
      (follow (Demo.host Demo.listing 0)
         [Execute (Pvcreate "/sbin/pvcreate" [] "/dev/sdc1");
          Execute (Pvcreate "/sbin/pvcreate" [] "/dev/sdc1")]
         false Demo.inventory_log).
Proof.
  destruct (C9_inventory_read_once
              (Demo.host Demo.listing 0)
              (Params (Some ["/dev/sdc1"; "/dev/sda1"; "/dev/sdc1"]) "" present false false))
    as (_ & _ & H).
  destruct (H ["/dev/sdc1"; "/dev/sda1"; "/dev/sdc1"] "/sbin/pvcreate" "/sbin/pvremove"
              Demo.inventory Demo.inventory_log) as [_ H'].
  - vm_compute. reflexivity.
  - exact H'.
Defined.

(** The inventory is not read again after a mutation: a device that is
    requested twice and is not in the inventory is created twice. *)
Example stale_inventory :
  main (Demo.host Demo.listing 0)
       (Params (Some ["/dev/sdc1"; "/dev/sdc1"]) "" present false false)
  = (Exited true,
     Demo.inventory_log ++
     [(Pvcreate "/sbin/pvcreate" [] "/dev/sdc1", (0, "", ""));
      (Pvcreate "/sbin/pvcreate" [] "/dev/sdc1", (0, "", ""))]).
Proof. vm_compute. reflexivity. Qed.

(** ** The parser of the listing *)

Section Parser.

Variable h : Host.

Lemma find_mapper_stops dm_device log o log' :
  find_mapper_device_name h dm_device log = (inl o, log') -> lookup_failure o.
Proof.
  unfold find_mapper_device_name, get_bin_path_required.
  destruct (get_bin_path h "dmsetup") as [cmd|]; run_simpl.
  - destruct (run_command h (history log) _) as [[rc out] err].
    destruct (rc =? 0); cbn [negb]; [discriminate|].
    intros [= <- _]. right. eauto.
  - intros [= <- _]. left. reflexivity.
Qed.

Lemma find_mapper_works dm_device log :
  dmsetup_works h ->
  exists name log', find_mapper_device_name h dm_device log = (inr name, log').
Proof.
  intros (cmd & Hcmd & Hrc).
  unfold find_mapper_device_name, get_bin_path_required. rewrite Hcmd. run_simpl.
  specialize (Hrc (history log) dm_device).
  destruct (run_command h (history log) _) as [[rc out] err]. simpl in Hrc. subst rc.
  cbn [Z.eqb negb]. eauto.
Qed.


Lemma parse_line_eq line inv log :
  parse_line h line inv log =
  match PyStr.split ";" (PyStr.strip line) with
  | [] => (inl (Raised IndexError), log)
  | name :: fields =>
      match resolve h name log with
      | (inl o, log') => (inl o, log')
      | (inr name', log') =>
          match fields with
          | vg :: size :: free :: _ => (inr (<[name' := PvInfo vg size free]> inv), log')
          | _ => (inl (Raised IndexError), log')
          end
      end
  end.
Proof.
  unfold parse_line, index, resolve.
  destruct (PyStr.split ";" (PyStr.strip line)) as [|name fields]; [reflexivity|].
  cbn [lookup list_lookup]. run_simpl.
  destruct (if PyStr.startswith dm_prefix name then _ else _) as [[o|name'] log'];
    [reflexivity|].
  destruct fields as [|vg [|size [|free rest]]]; reflexivity.
Qed.

Lemma resolve_stops name log o log' :
  resolve h name log = (inl o, log') -> lookup_failure o.
Proof.
  unfold resolve. destruct (PyStr.startswith dm_prefix name); [|discriminate].
  apply find_mapper_stops.
Qed.

Lemma resolve_works name log :
  dmsetup_works h -> exists name' log', resolve h name log = (inr name', log').
Proof.
  intros Hw. unfold resolve. destruct (PyStr.startswith dm_prefix name).
  - apply find_mapper_works. exact Hw.
  - eauto.
Qed.

(** A line stops the parse only by an index out of range or a failed
    lookup. *)
Lemma parse_line_stops line inv log o log' :
  parse_line h line inv log = (inl o, log') ->
  o = Raised IndexError \/ lookup_failure o.
Proof.
  rewrite parse_line_eq.
  destruct (PyStr.split ";" (PyStr.strip line)) as [|name fields];
    [intros [= <- _]; left; reflexivity|].
  destruct (resolve h name log) as [[o'|name'] l] eqn:E.
  - intros [= <- _]. right. eapply resolve_stops. exact E.
  - destruct fields as [|vg [|size [|free rest]]]; intros [= <- _] || discriminate;
      left; reflexivity.
Qed.

Lemma parse_line_short line inv log inv' log' :
  short_line line -> parse_line h line inv log <> (inr inv', log').
Proof.
  unfold short_line. rewrite parse_line_eq.
  destruct (PyStr.split ";" (PyStr.strip line)) as [|name fields]; [discriminate|].
  destruct (resolve h name log) as [[o'|name'] l]; [discriminate|].
  destruct fields as [|vg [|size [|free rest]]]; try discriminate.
  simpl. lia.
Qed.

Lemma parse_line_works line inv log :
  dmsetup_works h -> ~ short_line line ->
  exists inv' log', parse_line h line inv log = (inr inv', log').
Proof.
  intros Hw Hlong. unfold short_line in Hlong. rewrite parse_line_eq.
  destruct (PyStr.split ";" (PyStr.strip line)) as [|name fields];
    [simpl in Hlong; lia|].
  destruct (resolve_works name log Hw) as (name' & l & ->).
  destruct fields as [|vg [|size [|free rest]]]; simpl in Hlong; try lia. eauto.
Qed.

Lemma parse_line_stops_works line inv log o log' :
  dmsetup_works h ->
  parse_line h line inv log = (inl o, log') -> o = Raised IndexError.
Proof.
  intros Hw. rewrite parse_line_eq.
  destruct (PyStr.split ";" (PyStr.strip line)) as [|name fields];
    [intros [= <- _]; reflexivity|].
  destruct (resolve_works name log Hw) as (name' & l & ->).
  destruct fields as [|vg [|size [|free rest]]]; intros [= <- _] || discriminate;
    reflexivity.
Qed.

Lemma parse_loop_short lines :
  Exists short_line lines ->
  forall inv log inv' log', for_each (parse_line h) lines inv log <> (inr inv', log').
Proof.
  induction lines as [|line lines IH]; intros Hex inv log inv' log'.
  - inversion Hex.
  - cbn [for_each]. rewrite bind_unfold.
    destruct (parse_line h line inv log) as [[o|inv1] l] eqn:E; [discriminate|].
    apply Exists_cons in Hex as [Hs|Hex].
    + exfalso. exact (parse_line_short _ _ _ _ _ Hs E).
    + apply IH. exact Hex.
Qed.

Lemma parse_loop_works lines :
  dmsetup_works h -> Forall (fun line => ~ short_line line) lines ->
  forall inv log, exists inv' log', for_each (parse_line h) lines inv log = (inr inv', log').
Proof.
  intros Hw. induction 1 as [|line lines Hl _ IH]; intros inv log.
  - simpl. eauto.
  - cbn [for_each]. rewrite bind_unfold.
    destruct (parse_line_works line inv log Hw Hl) as (inv1 & l & ->). apply IH.
Qed.

End Parser.

Section PlainListing.

Variable h : Host.

Lemma parse_line_plain line name info inv log :
  record_of line = Some (name, info) ->
  PyStr.startswith dm_prefix name = false ->
  parse_line h line inv log = (inr (<[name := info]> inv), log).
Proof.
  unfold record_of, fields. intros Hr Hdm. rewrite parse_line_eq.
  destruct (PyStr.split ";" (PyStr.strip line)) as [|n [|vg [|size [|free rest]]]];
    try discriminate Hr.
  injection Hr as -> <-. unfold resolve. rewrite Hdm. reflexivity.
Qed.

Lemma parse_loop_plain lines :
  Forall plain_line lines ->
  forall inv log,
  exists inv',
    for_each (parse_line h) lines inv log = (inr inv', log)
    /\ forall k, inv' !! k = match last_info k lines with
                             | Some info => Some info
                             | None => inv !! k
                             end.
Proof.
  induction 1 as [|line lines (name & info & Hr & Hdm) _ IH]; intros inv log.
  - exists inv. split; reflexivity.
  - cbn [for_each]. rewrite bind_unfold, (parse_line_plain _ _ _ _ _ Hr Hdm).
    destruct (IH (<[name := info]> inv) log) as (inv' & E & Hk).
    exists inv'. split; [exact E|]. intros k. rewrite Hk. cbn [last_info]. rewrite Hr.
    destruct (last_info k lines); [reflexivity|].
    rewrite lookup_insert. destruct (String.eqb_spec name k) as [->|Hne].
    + rewrite decide_True by reflexivity. reflexivity.
    + rewrite decide_False by exact Hne.
      reflexivity.
Qed.

End PlainListing.

(** On a host whose [dmsetup] fails, a listing whose only line names a
    [/dev/dm-] node and has two fields ends the parse by the failure of the
    lookup, not by [IndexError]. *)
Lemma C10_lookup_failure_counterexample :
  ~ short_line_raises (Demo.host_without_mapper "/dev/dm-0;vg1") "/dev/dm-0;vg1".
Proof.
  intros H. assert (Hs : Exists short_line (PyStr.splitlines "/dev/dm-0;vg1")).
  { apply Exists_cons_hd. vm_compute. lia. }
  specialize (H Hs). vm_compute in H. discriminate H.
Qed.

(** C10 (amended).  When some line of the listing has fewer than four
    fields, [parse_pvs] returns no inventory: it stops by [IndexError], or,
    if a [dmsetup] lookup failed first, by that failure.  It is [IndexError],
    with no command run, whatever the host, when the first such line and the
    lines before it carry no [/dev/dm-] name; and it is [IndexError] on every
    host where [dmsetup] is installed and exits 0, on which the parse returns
    an inventory if and only if every line has at least four fields. *)
Theorem C10_parser_needs_four_fields (h : Host) (data : string) (log : list event) :
  (Exists short_line (PyStr.splitlines data) ->
   (forall inv log', parse_pvs h data log <> (inr inv, log'))
   /\ exists o, fst (parse_pvs h data log) = inl o
                /\ (o = Raised IndexError \/ lookup_failure o))
  /\ (forall pre line post,
        PyStr.splitlines data = pre ++ line :: post ->
        Forall plain_line pre ->
        short_line line ->
        PyStr.startswith dm_prefix (hd "" (fields line)) = false ->
        parse_pvs h data log = (inl (Raised IndexError), log))
  /\ (dmsetup_works h ->
      ((exists inv log', parse_pvs h data log = (inr inv, log'))
       <-> Forall (fun line => ~ short_line line) (PyStr.splitlines data))
      /\ (Exists short_line (PyStr.splitlines data) ->
          fst (parse_pvs h data log) = inl (Raised IndexError))).
Proof.
  unfold parse_pvs.
  assert (Hshort : Exists short_line (PyStr.splitlines data) ->
            forall inv log',
              for_each (parse_line h) (PyStr.splitlines data) ∅ log <> (inr inv, log')).
  { intros Hex. apply parse_loop_short. exact Hex. }
  split; [|split].
  - intros Hex. split; [apply Hshort; exact Hex|].
    destruct (for_each (parse_line h) (PyStr.splitlines data) ∅ log) as [[o|inv] l] eqn:E.
    + exists o. split; [reflexivity|].
      eapply (for_each_stops (fun o => o = Raised IndexError \/ lookup_failure o));
        [|exact E].
      intros. eapply parse_line_stops. eassumption.
    + exfalso. exact (Hshort Hex inv l eq_refl).
  - intros pre line post Hl Hpre Hs Hdm. rewrite Hl, for_each_app.
    destruct (parse_loop_plain h pre Hpre ∅ log) as (inv & -> & _).
    cbn [for_each]. rewrite bind_unfold, parse_line_eq.
    unfold short_line in Hs. unfold fields in Hdm.
    destruct (PyStr.split ";" (PyStr.strip line)) as [|name rest]; [reflexivity|].
    cbn [hd] in Hdm. unfold resolve. rewrite Hdm. run_simpl.
    destruct rest as [|vg [|size [|free more]]]; try reflexivity.
    simpl in Hs. lia.
  - intros Hw. split; [split|].
    + intros (inv & l & E). apply Forall_forall. intros line Hin Hs.
      apply (Hshort (proj2 (Exists_exists _ _) (ex_intro _ line (conj Hin Hs))) inv l E).
    + intros Hall. apply parse_loop_works; assumption.
    + intros Hex.
      destruct (for_each (parse_line h) (PyStr.splitlines data) ∅ log) as [[o|inv] l] eqn:E.
      * simpl. f_equal.
        eapply (for_each_stops (fun o => o = Raised IndexError)); [|exact E].
        intros. eapply parse_line_stops_works; eassumption.
      * exfalso. exact (Hshort Hex inv l eq_refl).
Qed.

Lemma C10_parser_witness :
  parse_pvs (Demo.host_without_mapper "")
    ("  /dev/sda1;;100B;100B" +:+ Demo.nl +:+ Demo.nl) []
  = (inl (Raised IndexError), []).
Proof.
  destruct (C10_parser_needs_four_fields (Demo.host_without_mapper "")
              ("  /dev/sda1;;100B;100B" +:+ Demo.nl +:+ Demo.nl) []) as (_ & H & _).
  apply (H ["  /dev/sda1;;100B;100B"] "" []).
  - vm_compute. reflexivity.
  - constructor; [|constructor].
    exists "/dev/sda1", (PvInfo "" "100B" "100B"). split; reflexivity.
  - vm_compute. lia.
  - reflexivity.
Defined.

(** ** Device names *)

Section Names.

Variable h : Host.

Lemma resolve_not_dm name log name' log' :
  resolve h name log = (inr name', log') -> PyStr.startswith dm_prefix name' = false.
Proof.
  unfold resolve. destruct (PyStr.startswith dm_prefix name) eqn:E.
  - unfold find_mapper_device_name, get_bin_path_required.
    destruct (get_bin_path h "dmsetup") as [cmd|]; run_simpl; [|discriminate].
    destruct (run_command h (history log) _) as [[rc out] err].
    destruct (rc =? 0); cbn [negb]; [|discriminate].
    intros [= <- _]. reflexivity.
  - intros [= <- _]. exact E.
Qed.

(** No key of the inventory starts with [/dev/dm-]. *)
Lemma parse_loop_keys lines :
  forall inv log inv' log',
    (forall k, is_Some (inv !! k) -> PyStr.startswith dm_prefix k = false) ->
    for_each (parse_line h) lines inv log = (inr inv', log') ->
    forall k, is_Some (inv' !! k) -> PyStr.startswith dm_prefix k = false.
Proof.
  induction lines as [|line lines IH]; intros inv log inv' log' Hinv.
  - intros [= <- _]. exact Hinv.
  - cbn [for_each]. rewrite bind_unfold.
    destruct (parse_line h line inv log) as [[o|inv1] l] eqn:E; [discriminate|].
    apply IH. revert E. rewrite parse_line_eq.
    destruct (PyStr.split ";" (PyStr.strip line)) as [|name fields]; [discriminate|].
    destruct (resolve h name log) as [[o|name'] l'] eqn:Er; [discriminate|].
    destruct fields as [|vg [|size [|free rest]]]; try discriminate.
    intros [= <- _] k. rewrite lookup_insert. case_decide as Hk.
    + subst k. intros _. eapply resolve_not_dm. exact Er.
    + apply Hinv.
Qed.

Lemma inventory_keys_rewritten data log inv log' :
  parse_pvs h data log = (inr inv, log') ->
  forall k, is_Some (inv !! k) -> PyStr.startswith dm_prefix k = false.
Proof.
  unfold parse_pvs. apply parse_loop_keys. intros k [x Hx].
  rewrite lookup_empty in Hx. discriminate.
Qed.

End Names.

(** Requests with the same real paths are the same run: a symbolic link and
    its target cannot be told apart. *)
Theorem same_real_paths_same_run
    (h : Host) (opts : string) (st : state_choice) (frc chk : bool)
    (devs devs' : list string) :
  map (realpath h) devs = map (realpath h) devs' ->
  main h (Params (Some devs) opts st frc chk) = main h (Params (Some devs') opts st frc chk).
Proof.
  intros E. rewrite !main_eq, !main_run_eq, !requested_devices_eq. cbn [pvs state].
  destruct devs as [|d l], devs' as [|d' l']; try discriminate E; [reflexivity|].
  rewrite E. reflexivity.
Qed.

Lemma same_real_paths_witness :
  main (Demo.host Demo.listing 0) (Params (Some ["/dev/mapper/vg1-lv"]) "" absent true false)
  = main (Demo.host Demo.listing 0) (Params (Some ["/dev/dm-0"]) "" absent true false).
Proof.
  apply (same_real_paths_same_run (Demo.host Demo.listing 0) "" absent true false
           ["/dev/mapper/vg1-lv"] ["/dev/dm-0"]).
  reflexivity.
Defined.

Section MapperNames.

Variable h : Host.

(** A line named after a [/dev/dm-] node is stored under [/dev/mapper/]
    followed by what [dmsetup] printed, without its trailing whitespace. *)
Lemma parse_line_mapper line name info dmsetup_cmd out err inv log :
  record_of line = Some (name, info) ->
  PyStr.startswith dm_prefix name = true ->
  get_bin_path h "dmsetup" = Some dmsetup_cmd ->
  run_command h (history log) (render (Dmsetup dmsetup_cmd name)) = (0, out, err) ->
  parse_line h line inv log
  = (inr (<[mapper_prefix +:+ PyStr.rstrip out := info]> inv),
     log ++ [(Dmsetup dmsetup_cmd name, (0, out, err))]).
Proof.
  unfold record_of, fields. intros Hr Hdm Hcmd Hrun. rewrite parse_line_eq.
  destruct (PyStr.split ";" (PyStr.strip line)) as [|n [|vg [|size [|free rest]]]];
    try discriminate Hr.
  injection Hr as -> <-. unfold resolve. rewrite Hdm.
  unfold find_mapper_device_name, get_bin_path_required. rewrite Hcmd. run_simpl.
  rewrite Hrun. reflexivity.
Qed.

(** The two ways a line enters the inventory. *)
Lemma parse_line_goes line inv log inv' log' :
  parse_line h line inv log = (inr inv', log') ->
  exists name key info,
    record_of line = Some (name, info)
    /\ inv' = <[key := info]> inv
    /\ ((log' = log /\ key = name)
        \/ exists dmsetup_cmd out err,
            log' = log ++ [(Dmsetup dmsetup_cmd name, (0, out, err))]
            /\ key = mapper_prefix +:+ PyStr.rstrip out).
Proof.
  rewrite parse_line_eq. unfold record_of, fields.
  destruct (PyStr.split ";" (PyStr.strip line)) as [|name rest]; [discriminate|].
  unfold resolve. destruct (PyStr.startswith dm_prefix name).
  - unfold find_mapper_device_name, get_bin_path_required.
    destruct (get_bin_path h "dmsetup") as [cmd|]; run_simpl; [|discriminate].
    destruct (run_command h (history log) _) as [[rc out] err].
    destruct (Z.eqb_spec rc 0) as [->|Hrc]; cbn [negb]; [|discriminate]. run_simpl.
    destruct rest as [|vg [|size [|free more]]]; try discriminate.
    intros [= <- <-]. exists name, (mapper_prefix +:+ PyStr.rstrip out), (PvInfo vg size free).
    split; [reflexivity|]. split; [reflexivity|]. right. eauto.
  - run_simpl. destruct rest as [|vg [|size [|free more]]]; try discriminate.
    intros [= <- <-]. exists name, name, (PvInfo vg size free).
    split; [reflexivity|]. split; [reflexivity|]. left. split; reflexivity.
Qed.

(** After a parse, every [dmsetup] lookup of its log has its key in the
    inventory, and the keys that were there stay. *)
Lemma parse_loop_mapper lines :
  forall inv log inv' log',
    for_each (parse_line h) lines inv log = (inr inv', log') ->
    exists ext,
      log' = log ++ ext
      /\ (forall k, is_Some (inv !! k) -> is_Some (inv' !! k))
      /\ forall c rc out err,
           In (c, (rc, out, err)) ext ->
           is_Some (inv' !! (mapper_prefix +:+ PyStr.rstrip out)).
Proof.
  induction lines as [|line lines IH]; intros inv log inv' log'.
  - intros [= <- <-]. exists []. rewrite app_nil_r.
    split; [reflexivity|]. split; [auto | intros ? ? ? ? []].
  - cbn [for_each]. rewrite bind_unfold.
    destruct (parse_line h line inv log) as [[o|inv1] l1] eqn:E; [discriminate|].
    intros El. destruct (IH _ _ _ _ El) as (ext & -> & Hkeep & Hext).
    destruct (parse_line_goes _ _ _ _ _ E) as (name & key & info & _ & -> & Hcase).
    assert (Hk1 : forall k, is_Some (inv !! k) -> is_Some (<[key := info]> inv !! k)).
    { intros k Hk. rewrite lookup_insert. case_decide; [eauto | exact Hk]. }
    destruct Hcase as [[-> ->]|(cmd & out & err & -> & ->)].
    + exists ext. split; [reflexivity|]. split; [auto|]. exact Hext.
    + exists ((Dmsetup cmd name, (0, out, err)) :: ext). rewrite <- app_assoc.
      split; [reflexivity|]. split; [auto|].
      intros c rc out' err' [[= <- <- <- <-]|Hin]; [|eapply Hext; exact Hin].
      apply Hkeep. rewrite lookup_insert_eq. eauto.
Qed.

End MapperNames.

(** The keys of the inventory built by [parse_pvs].  No key starts with
    [/dev/dm-].  A line whose name starts with [/dev/dm-] is stored, once
    [dmsetup] has exited 0, under [/dev/mapper/] followed by the name
    [dmsetup] printed, trailing whitespace removed, and the lookup is logged.
    In the inventory a parse returns, every [dmsetup] lookup of the parse has
    that key. *)
Theorem inventory_has_no_dm_key (h : Host) :
  (forall data log inv log' k,
      parse_pvs h data log = (inr inv, log') ->
      is_Some (inv !! k) ->
      PyStr.startswith dm_prefix k = false)
  /\ (forall line name info dmsetup_cmd out err inv log,
        record_of line = Some (name, info) ->
        PyStr.startswith dm_prefix name = true ->
        get_bin_path h "dmsetup" = Some dmsetup_cmd ->
        run_command h (history log) (render (Dmsetup dmsetup_cmd name)) = (0, out, err) ->
        parse_line h line inv log
        = (inr (<[mapper_prefix +:+ PyStr.rstrip out := info]> inv),
           log ++ [(Dmsetup dmsetup_cmd name, (0, out, err))]))
  /\ (forall data log inv log',
        parse_pvs h data log = (inr inv, log') ->
        exists ext,
          log' = log ++ ext
          /\ forall c rc out err,
               In (c, (rc, out, err)) ext ->
               is_Some (inv !! (mapper_prefix +:+ PyStr.rstrip out))).
Proof.
  split; [|split].
  - intros data log inv log' k E. revert k. eapply inventory_keys_rewritten. exact E.
  - intros. eapply parse_line_mapper; eassumption.
  - intros data log inv log' E. unfold parse_pvs in E.
    destruct (parse_loop_mapper h _ _ _ _ _ E) as (ext & -> & _ & Hext).
    exists ext. split; [reflexivity | exact Hext].
Qed.

Lemma inventory_has_no_dm_key_witness :
  parse_line (Demo.host Demo.listing 0) "  /dev/dm-0;vg1;100B;100B" ∅ []
  = (inr (<["/dev/mapper/vg1-lv" := PvInfo "vg1" "100B" "100B"]> ∅),
     [(Dmsetup "/sbin/dmsetup" "/dev/dm-0", (0, "vg1-lv" +:+ Demo.nl, ""))]).
Proof.
  destruct (inventory_has_no_dm_key (Demo.host Demo.listing 0)) as (_ & H & _).
  apply (H "  /dev/dm-0;vg1;100B;100B" "/dev/dm-0" (PvInfo "vg1" "100B" "100B")
           "/sbin/dmsetup" ("vg1-lv" +:+ Demo.nl) "" ∅ []); reflexivity.
Defined.

(** C4.  The physical volume on [/dev/dm-0] is in the inventory under its
    alias [/dev/mapper/vg1-lv]; it is requested present under that very alias,
    a symbolic link to [/dev/dm-0].  The request is compared as [/dev/dm-0],
    its real path, without the rewriting applied to the listing, so the
    lookup misses and [pvcreate] is run on a device that already is a physical
    volume. *)
Theorem C4_requested_dm_path_not_rewritten :
  let h := Demo.host Demo.listing 0 in
  let p := Params (Some ["/dev/mapper/vg1-lv"]) "" present false false in
  realpath h "/dev/mapper/vg1-lv" = "/dev/dm-0"
  /\ prepare h p []
     = (inr (["/dev/dm-0"], "/sbin/pvcreate", "/sbin/pvremove", Demo.inventory),
        Demo.inventory_log)
  /\ Demo.inventory !! "/dev/mapper/vg1-lv" = Some (PvInfo "vg1" "100B" "100B")
  /\ Demo.inventory !! "/dev/dm-0" = None
  /\ main h p
     = (Exited true,
        Demo.inventory_log ++ [(Pvcreate "/sbin/pvcreate" [] "/dev/dm-0", (0, "", ""))]).
Proof. repeat split; vm_compute; reflexivity. Qed.

(** ** Runs that exit *)

Section Exact.

Variable h : Host.

Lemma finish_goes c resp b :
  finish c resp = inr b -> b = true /\ resp.1.1 = 0.
Proof.
  unfold finish. destruct (Z.eqb_spec resp.1.1 0) as [E|E]; [|discriminate].
  intros [= <-]. split; [reflexivity | exact E].
Qed.

(** A loop of [state=present] that runs to its end has gone through the
    whole plan. *)
Lemma present_loop_exact p c1 c2 inv :
  state p = present -> check_mode p = false ->
  forall dev_list changed log b log',
    for_each (present_step h false c1 (PyStr.words (pv_options p)) inv)
      dev_list changed log = (inr b, log') ->
    exists ext,
      log' = log ++ ext
      /\ map fst ext = plan p c1 c2 inv dev_list
      /\ Forall (fun e => e.2.1.1 = 0) ext
      /\ b = changed || nonempty ext
      /\ nonempty ext = negb (forallb (satisfied present inv) dev_list).
Proof.
  intros Hst Hchk. induction dev_list as [|d l IH]; intros changed log b log'.
  - intros [= <- <-]. exists []. rewrite app_nil_r, orb_false_r.
    repeat split. constructor.
  - cbn [for_each plan forallb]. rewrite Hst, bind_unfold. unfold satisfied at 1.
    destruct (inv !! d) as [info|] eqn:E.
    + rewrite (present_step_known _ _ _ _ _ _ _ _ _ E). apply IH.
    + rewrite (present_step_create _ _ _ _ _ _ _ E).
      set (c := Pvcreate c1 (PyStr.words (pv_options p)) d).
      set (resp := run_command h (history log) (render c)).
      destruct (finish c resp) as [o|b0] eqn:Ef; [discriminate|].
      apply finish_goes in Ef as [-> Hrc]. intros El.
      destruct (IH _ _ _ _ El) as (ext & -> & Hp & Hz & Hb & _).
      exists ((c, resp) :: ext). rewrite <- app_assoc. cbn [map fst nonempty andb negb].
      rewrite Hp, orb_true_r. repeat split; try assumption.
      constructor; assumption.
Qed.

Lemma absent_loop_exact p c1 c2 inv :
  state p = absent -> check_mode p = false ->
  forall dev_list changed log b log',
    for_each (absent_step h false (force p) c2 inv) dev_list changed log = (inr b, log') ->
    exists ext,
      log' = log ++ ext
      /\ map fst ext = plan p c1 c2 inv dev_list
      /\ Forall (fun e => e.2.1.1 = 0) ext
      /\ b = changed || nonempty ext
      /\ nonempty ext = negb (forallb (satisfied absent inv) dev_list).
Proof.
  intros Hst Hchk. induction dev_list as [|d l IH]; intros changed log b log'.
  - intros [= <- <-]. exists []. rewrite app_nil_r, orb_false_r.
    repeat split. constructor.
  - cbn [for_each plan forallb]. rewrite Hst, bind_unfold. unfold satisfied at 1.
    destruct (inv !! d) as [info|] eqn:E.
    2: { rewrite (absent_step_unknown _ _ _ _ _ _ _ _ E). apply IH. }
    destruct (force p).
    + rewrite (absent_step_forced _ _ _ _ _ _ _ E).
      set (c := PvremoveForce c2 d).
      set (resp := run_command h (history log) (render c)).
      destruct (finish c resp) as [o|b0] eqn:Ef; [discriminate|].
      apply finish_goes in Ef as [-> Hrc]. intros El.
      destruct (IH _ _ _ _ El) as (ext & -> & Hp & Hz & Hb & _).
      exists ((c, resp) :: ext). rewrite <- app_assoc. cbn [map fst nonempty andb negb].
      rewrite Hp, orb_true_r. repeat split; try assumption.
      constructor; assumption.
    + destruct (String.eqb (pv_size info) (pv_free info)
                && PyStr.is_empty (vg_name info)) eqn:B.
      * rewrite (absent_step_graceful _ _ _ _ _ _ _ E (proj1 (unused_spec _) B)).
        set (c := Pvremove c2 d).
        set (resp := run_command h (history log) (render c)).
        destruct (finish c resp) as [o|b0] eqn:Ef; [discriminate|].
        apply finish_goes in Ef as [-> Hrc]. intros El.
        destruct (IH _ _ _ _ El) as (ext & -> & Hp & Hz & Hb & _).
        exists ((c, resp) :: ext). rewrite <- app_assoc. cbn [map fst nonempty andb negb].
        rewrite Hp, orb_true_r. repeat split; try assumption.
        constructor; assumption.
      * assert (U : ~ unused info) by (rewrite <- unused_spec, B; discriminate).
        rewrite (absent_step_refuse _ _ _ _ _ _ _ E U). discriminate.
Qed.

Lemma reconcile_exact p c1 c2 inv dev_list log b log' :
  check_mode p = false ->
  reconcile h p c1 c2 inv dev_list log = (inl (Exited b), log') ->
  exists ext,
    log' = log ++ ext
    /\ map fst ext = plan p c1 c2 inv dev_list
    /\ Forall (fun e => e.2.1.1 = 0) ext
    /\ b = nonempty ext
    /\ b = negb (forallb (satisfied (state p) inv) dev_list).
Proof.
  intros Hchk. unfold reconcile. rewrite bind_unfold, Hchk.
  destruct (state p) eqn:Hst.
  - destruct (for_each _ dev_list false log) as [[o|b'] l] eqn:El.
    + intros [= -> _]. exfalso.
      eapply (for_each_stops is_failure) in El; [exact El|].
      intros. eapply present_step_stops; eassumption.
    + intros [= <- <-].
      destruct (present_loop_exact p c1 c2 inv Hst Hchk _ _ _ _ _ El)
        as (ext & -> & Hp & Hz & Hb & Hs).
      exists ext. rewrite <- Hs. repeat split; assumption.
  - destruct (for_each _ dev_list false log) as [[o|b'] l] eqn:El.
    + intros [= -> _]. exfalso.
      eapply (for_each_stops is_failure) in El; [exact El|].
      intros. eapply absent_step_stops; eassumption.
    + intros [= <- <-].
      destruct (absent_loop_exact p c1 c2 inv Hst Hchk _ _ _ _ _ El)
        as (ext & -> & Hp & Hz & Hb & Hs).
      exists ext. rewrite <- Hs. repeat split; assumption.
Qed.

Lemma sw_ret {A : Type} (P : outcome -> Prop) (a : A) : stops_with P (mret a).
Proof. intros log o log'. discriminate. Qed.

Lemma sw_stop {A : Type} (P : outcome -> Prop) (o : outcome) :
  P o -> stops_with P (@stop A o).
Proof. intros Ho log o' log'. intros [= <- _]. exact Ho. Qed.

Lemma sw_bind {A B : Type} (P : outcome -> Prop) (m : Run A) (k : A -> Run B) :
  stops_with P m -> (forall a, stops_with P (k a)) -> stops_with P (m ≫= k).
Proof.
  intros Hm Hk log o log'. rewrite bind_unfold.
  destruct (m log) as [[o'|a] l] eqn:E.
  - intros [= <- _]. eapply Hm. exact E.
  - apply Hk.
Qed.

Lemma sw_for_each {A S : Type} (P : outcome -> Prop) (body : A -> S -> Run S) l :
  (forall a s, stops_with P (body a s)) -> forall s, stops_with P (for_each body l s).
Proof.
  intros Hb. induction l as [|a l IH]; intros s; simpl.
  - apply sw_ret.
  - apply sw_bind; [apply Hb | apply IH].
Qed.

Lemma sw_run_cmd (P : outcome -> Prop) c : stops_with P (run_cmd h c).
Proof. intros log o log'. discriminate. Qed.

(** Before the reconciliation a run can only fail or raise. *)
Lemma prepare_stops p : stops_with is_error (prepare h p).
Proof.
  unfold prepare, requested_devices, check_devices, read_inventory, parse_pvs,
    get_bin_path_required, fail_json, raise.
  repeat first
    [ apply sw_ret | apply sw_run_cmd | apply sw_stop; exact I
    | apply sw_for_each; intros
    | apply sw_bind; [|intros]
    | match goal with
      | |- stops_with _ (match ?x with _ => _ end) => destruct x
      end
    | progress unfold parse_line, index, find_mapper_device_name,
        get_bin_path_required, fail_json, raise ].
Qed.

(** An invocation that exits got through [prepare]. *)
Lemma exit_after_prepare p b log :
  main h p = (Exited b, log) ->
  exists dev_list c1 c2 inv log0,
    prepare h p [] = (inr (dev_list, c1, c2, inv), log0)
    /\ reconcile h p c1 c2 inv dev_list log0 = (inl (Exited b), log).
Proof.
  rewrite main_eq, main_run_prepare, bind_unfold.
  destruct (prepare h p []) as [[o|[[[dev_list c1] c2] inv]] log0] eqn:E.
  - intros [= -> ->]. destruct (prepare_stops p _ _ _ E).
  - exists dev_list, c1, c2, inv, log0. split; [reflexivity|].
    destruct (reconcile h p c1 c2 inv dev_list log0) as [[o|[]] l].
    congruence.
Qed.

End Exact.

(** A run that exits outside check mode has run the whole plan computed
    from its inventory, every command of it exited 0, and [changed] tells
    whether the plan held a command, that is whether some requested device
    was not in the desired state. *)
Theorem exit_means_plan_executed (h : Host) (p : params) (b : bool) (log : list event) :
  check_mode p = false ->
  main h p = (Exited b, log) ->
  exists dev_list c1 c2 inv log0 muts,
    prepare h p [] = (inr (dev_list, c1, c2, inv), log0)
    /\ log = log0 ++ muts
    /\ map fst muts = plan p c1 c2 inv dev_list
    /\ Forall (fun e => e.2.1.1 = 0) muts
    /\ b = nonempty muts
    /\ b = negb (forallb (satisfied (state p) inv) dev_list).
Proof.
  intros Hchk Hm.
  destruct (exit_after_prepare h p b log Hm) as (dev_list & c1 & c2 & inv & log0 & Ep & Er).
  destruct (reconcile_exact h p c1 c2 inv dev_list log0 b log Hchk Er)
    as (muts & -> & Hp & Hz & Hb & Hs).
  exists dev_list, c1, c2, inv, log0, muts. repeat split; assumption.
Qed.

Lemma exit_means_plan_executed_witness :
  exists dev_list c1 c2 inv log0 muts,
    prepare (Demo.host Demo.listing 0)
      (Params (Some ["/dev/sda1"; "/dev/sdc1"]) "-f" present false false) []
    = (inr (dev_list, c1, c2, inv), log0)
    /\ Demo.inventory_log ++ [(Pvcreate "/sbin/pvcreate" ["-f"] "/dev/sdc1", (0, "", ""))]
       = log0 ++ muts
    /\ map fst muts
       = plan (Params (Some ["/dev/sda1"; "/dev/sdc1"]) "-f" present false false)
           c1 c2 inv dev_list
    /\ Forall (fun e => e.2.1.1 = 0) muts
    /\ true = nonempty muts
    /\ true = negb (forallb (satisfied present inv) dev_list).
Proof.
  apply (exit_means_plan_executed (Demo.host Demo.listing 0)
           (Params (Some ["/dev/sda1"; "/dev/sdc1"]) "-f" present false false) true).
  - reflexivity.
  - vm_compute. reflexivity.
Defined.

(** [prepare] does not look at the check-mode flag. *)
Lemma prepare_any_mode h l o st f chk chk' :
  prepare h (Params l o st f chk) = prepare h (Params l o st f chk').
Proof. reflexivity. Qed.



Lemma absent_loop_idle h chk frc c2 inv dev_list changed log :
  Forall (fun d => inv !! d = None) dev_list ->
  for_each (absent_step h chk frc c2 inv) dev_list changed log = (inr changed, log).
Proof.
  induction 1 as [|d l Hd Hl IH]; [reflexivity|].
  cbn [for_each]. rewrite bind_unfold, (absent_step_unknown _ _ _ _ _ _ _ _ Hd).
  exact IH.
Qed.

(** Check mode does not predict a refusal: when the first requested device
    that is in the inventory is in use and [force] is off, the run outside
    check mode fails with the refusal, having run no mutating command, while
    the run in check mode reports [changed=true]. *)
Theorem check_mode_misses_refusal
    (h : Host) (l : option (list string)) (o : string)
    (pre : list string) (d : string) (post : list string) (c1 c2 : string)
    (inv : gmap string pv_info) (info : pv_info) (log0 : list event) :
  prepare h (Params l o absent false false) []
  = (inr (pre ++ d :: post, c1, c2, inv), log0) ->
  Forall (fun x => inv !! x = None) pre ->
  inv !! d = Some info ->
  ~ unused info ->
  main h (Params l o absent false false)
  = (Failed (msg_refuse d (vg_name info)) None None, log0)
  /\ main h (Params l o absent false true) = (Exited true, log0).
Proof.
  intros Ep Hpre Hd U. split.
  - rewrite (main_after_prepare _ _ _ _ _ _ _ Ep), reconcile_absent.
    rewrite (for_each_reaches _ _ _ _ _ _ _ _ (absent_loop_idle h _ _ _ _ _ _ _ Hpre)).
    rewrite bind_unfold, (absent_step_refuse _ _ _ _ _ _ _ Hd U). reflexivity.
  - rewrite (prepare_any_mode h l o absent false false true) in Ep.
    rewrite (main_after_prepare _ _ _ _ _ _ _ Ep), check_reconcile.
    rewrite forallb_app. cbn [forallb]. unfold satisfied at 2. rewrite Hd.
    rewrite andb_false_r. reflexivity.
Qed.

Lemma check_mode_misses_refusal_witness :
  main (Demo.host Demo.listing 0)
       (Params (Some ["/dev/sdc1"; "/dev/sdb1"; "/dev/sda1"]) "" absent false false)
  = (Failed (msg_refuse "/dev/sdb1" "vg0") None None, Demo.inventory_log)
  /\ main (Demo.host Demo.listing 0)
          (Params (Some ["/dev/sdc1"; "/dev/sdb1"; "/dev/sda1"]) "" absent false true)
     = (Exited true, Demo.inventory_log).
Proof.
  apply (check_mode_misses_refusal (Demo.host Demo.listing 0)
           (Some ["/dev/sdc1"; "/dev/sdb1"; "/dev/sda1"]) ""
           ["/dev/sdc1"] "/dev/sdb1" ["/dev/sda1"] "/sbin/pvcreate" "/sbin/pvremove"
           Demo.inventory (PvInfo "vg0" "100B" "0B") Demo.inventory_log).
  - vm_compute. reflexivity.
  - constructor; [vm_compute; reflexivity | constructor].
  - vm_compute. reflexivity.
  - intros [U _]. discriminate U.
Defined.

(** ** What a run never does *)

Lemma emits_prepare h p :
  emits (fun e => is_mutating (fst e) = false) (prepare h p).
Proof.
  unfold prepare.
  apply emits_bind.
  { intros log. exists []. rewrite requested_devices_eq.
    split; [symmetry; apply app_nil_r | constructor]. }
  intros dev_list. apply emits_bind; [apply emits_check_devices|]. intros _.
  apply emits_bind; [|intros [[c1 c2] inv]; apply emits_ret].
  unfold read_inventory.
  repeat (apply emits_bind; [apply emits_get_bin_path_required|]; intros ?).
  apply emits_bind; [apply emits_run_cmd; reflexivity|].
  intros [[rc out] err]. apply emits_if; [apply emits_stop|].
  apply emits_bind; [|intros; apply emits_ret].
  eapply emits_weaken; [|apply emits_parse_pvs].
  intros [c r] He. destruct c; try discriminate He; reflexivity.
Qed.

(** The devices [prepare] hands over are the real paths of the request. *)
Lemma prepare_requested h p dev_list c1 c2 inv log0 :
  prepare h p [] = (inr (dev_list, c1, c2, inv), log0) -> dev_list = requested h p.
Proof.
  unfold prepare, requested. rewrite bind_unfold, requested_devices_eq.
  destruct (pvs p) as [[|d l]|]; try (destruct (state p); discriminate).
  run_simpl.
  destruct (check_devices h (state p) _ []) as [[o|u] l2]; [discriminate|]. run_simpl.
  destruct (read_inventory h l2) as [[o|[[t1 t2] i]] l3]; [discriminate|].
  intros [= <- _ _ _ _]. reflexivity.
Qed.

(** Every command of the plan is allowed. *)
Lemma plan_allowed p c1 c2 inv all :
  forall dev_list,
    (forall d, In d dev_list -> In d all) ->
    forall c, In c (plan p c1 c2 inv dev_list) -> allowed p c1 c2 inv all c.
Proof.
  induction dev_list as [|d l IH]; intros Hsub c; [intros []|].
  assert (Hl : forall x, In x l -> In x all) by (intros x Hx; apply Hsub; right; exact Hx).
  assert (Hd : In d all) by (apply Hsub; left; reflexivity).
  cbn [plan].
  destruct (state p) eqn:Hst, (inv !! d) as [info|] eqn:E; try (apply IH; exact Hl).
  - intros [<-|Hc]; [|apply IH; assumption]. simpl. auto.
  - destruct (force p) eqn:Hf.
    + intros [<-|Hc]; [|apply IH; assumption]. simpl. rewrite E. eauto 10.
    + destruct (String.eqb (pv_size info) (pv_free info)
                && PyStr.is_empty (vg_name info)) eqn:B; [|intros []].
      intros [<-|Hc]; [|apply IH; assumption]. simpl.
      apply unused_spec in B. eauto 10.
Qed.

(** Whatever the host answers, a mutating command in the log of a run is an
    allowed one: [pvcreate] only under [state=present], with the options of
    the request, on a requested device that the inventory does not hold;
    [pvremove] only under [state=absent] without [force], on a requested
    device that the inventory holds with equal sizes and no group;
    [pvremove -ff -y] only under [state=absent] with [force], on a requested
    device that the inventory holds.  No device outside the request is ever
    touched. *)
Theorem mutations_are_allowed (h : Host) (p : params) (e : event) :
  In e (snd (main h p)) ->
  is_mutating (fst e) = true ->
  exists dev_list c1 c2 inv log0,
    prepare h p [] = (inr (dev_list, c1, c2, inv), log0)
    /\ snapshot h = Some inv
    /\ allowed p c1 c2 inv (requested h p) (fst e).
Proof.
  intros Hin Hmut. revert Hin.
  rewrite main_eq, main_run_prepare, bind_unfold.
  destruct (emits_prepare h p []) as (ext0 & E0 & F0). simpl in E0.
  destruct (prepare h p []) as [[o0|[[[dev_list c1] c2] inv]] log0] eqn:Ep;
    simpl in E0; subst log0.
  - simpl. intros Hin. exfalso.
    rewrite Forall_forall in F0. specialize (F0 e (proj2 (list_elem_of_In _ _) Hin)).
    congruence.
  - destruct (reconcile_follows_plan h p c1 c2 inv dev_list ext0) as (muts & Em & Hp).
    destruct (reconcile h p c1 c2 inv dev_list ext0) as [[o0|[]] l]. simpl in Em. subst l.
    simpl. intros Hin. apply in_app_or in Hin as [Hin|Hin].
    { exfalso. rewrite Forall_forall in F0.
      specialize (F0 e (proj2 (list_elem_of_In _ _) Hin)). congruence. }
    exists dev_list, c1, c2, inv, ext0. split; [reflexivity|]. split.
    + revert Ep. unfold prepare, snapshot. rewrite bind_unfold, requested_devices_eq.
      destruct (match pvs p with Some (dev :: devs) => _ | _ => _ end) as [o|dl];
        [discriminate|].
      run_simpl.
      pose proof (emits_nothing _ [] (emits_check_devices h _ (state p) dl)) as Hc.
      destruct (check_devices h (state p) dl []) as [[o|u] l2]; simpl in Hc; subst l2;
        [discriminate|].
      run_simpl. destruct (read_inventory h []) as [[o|[[t1 t2] i]] l3]; [discriminate|].
      intros [= _ _ _ <- _]. reflexivity.
    + rewrite <- (prepare_requested h p _ _ _ _ _ Ep).
      apply (plan_allowed p c1 c2 inv dev_list dev_list (fun d H => H)).
      destruct Hp as [k Hk]. rewrite Hk. apply in_or_app. left.
      apply in_map. exact Hin.
Qed.

Lemma mutations_are_allowed_witness :
  exists dev_list c1 c2 inv log0,
    prepare (Demo.host Demo.listing 0)
      (Params (Some ["/dev/sdc1"; "/dev/sda1"; "/dev/sdb1"]) "" absent false false) []
    = (inr (dev_list, c1, c2, inv), log0)
    /\ snapshot (Demo.host Demo.listing 0) = Some inv
    /\ allowed (Params (Some ["/dev/sdc1"; "/dev/sda1"; "/dev/sdb1"]) "" absent false false)
         c1 c2 inv
         (requested (Demo.host Demo.listing 0)
            (Params (Some ["/dev/sdc1"; "/dev/sda1"; "/dev/sdb1"]) "" absent false false))
         (Pvremove "/sbin/pvremove" "/dev/sda1").
Proof.
  apply (mutations_are_allowed (Demo.host Demo.listing 0)
           (Params (Some ["/dev/sdc1"; "/dev/sda1"; "/dev/sdb1"]) "" absent false false)
           (Pvremove "/sbin/pvremove" "/dev/sda1", (0, "", ""))).
  - vm_compute. right. right. left. reflexivity.
  - reflexivity.
Defined.

(** ** What a run does not look at *)

(** Under [state=absent] a run does not ask whether the devices exist, and
    does not use [pv_options]; under [state=present] it does not use
    [force]. *)
Theorem state_ignores_the_rest
    (h : Host) (l : option (list string)) (o o' : string) (f f' chk : bool)
    (exists' : string -> bool) :
  main (with_path_exists h exists') (Params l o absent f chk) = main h (Params l o absent f chk)
  /\ main h (Params l o' absent f chk) = main h (Params l o absent f chk)
  /\ main h (Params l o present f' chk) = main h (Params l o present f chk).
Proof. repeat split; reflexivity. Qed.

(** ** The tools *)

(** The three tools are located before the listing, whatever the state: if
    [pvs], [pvcreate] or [pvremove] is not found, the run ends without
    having run a command and not by [exit_json]. *)
Theorem missing_tool_stops_the_run (h : Host) (p : params) :
  get_bin_path h "pvs" = None \/ get_bin_path h "pvcreate" = None
  \/ get_bin_path h "pvremove" = None ->
  snd (main h p) = [] /\ is_error (fst (main h p)).
Proof.
  intros Hmiss.
  assert (Hr : forall log, exists o, read_inventory h log = (inl o, log) /\ is_error o).
  { intros log. unfold read_inventory, get_bin_path_required.
    destruct (get_bin_path h "pvs"); [|eexists; split; [reflexivity | exact I]].
    destruct (get_bin_path h "pvcreate"); [|eexists; split; [reflexivity | exact I]].
    destruct (get_bin_path h "pvremove"); [|eexists; split; [reflexivity | exact I]].
    destruct Hmiss as [H|[H|H]]; discriminate H. }
  rewrite main_eq, main_run_eq, requested_devices_eq.
  destruct (match pvs p with Some (dev :: devs) => _ | _ => _ end) as [o|dev_list] eqn:Eq.
  - simpl. split; [reflexivity|].
    destruct (pvs p) as [[|d l]|]; try discriminate Eq;
      destruct (state p); injection Eq as <-; exact I.
  - pose proof (emits_nothing _ [] (emits_check_devices h _ (state p) dev_list)) as Hc.
    destruct (check_devices h (state p) dev_list []) as [[o|u] l2] eqn:Ec;
      simpl in Hc; subst l2.
    + simpl. split; [reflexivity|].
      assert (Hs : stops_with is_error (check_devices h (state p) dev_list)).
      { unfold check_devices. destruct (state p); [|apply sw_ret].
        apply sw_for_each. intros a s. destruct (path_exists h a);
          [apply sw_ret | apply sw_stop; exact I]. }
      exact (Hs _ _ _ Ec).
    + destruct (Hr []) as (o & -> & Ho). simpl. split; [reflexivity | exact Ho].
Qed.

Lemma missing_tool_witness :
  snd (main (Build_Host (fun s => s) (fun _ => true)
              (fun name => if String.eqb name "pvcreate" then None else Some name)
              (fun _ _ => (0, "", "")))
            (Params (Some ["/dev/sda1"]) "" absent false false)) = []
  /\ is_error
       (fst (main (Build_Host (fun s => s) (fun _ => true)
                     (fun name => if String.eqb name "pvcreate" then None else Some name)
                     (fun _ _ => (0, "", "")))
                  (Params (Some ["/dev/sda1"]) "" absent false false))).
Proof.
  apply (missing_tool_stops_the_run
           (Build_Host (fun s => s) (fun _ => true)
              (fun name => if String.eqb name "pvcreate" then None else Some name)
              (fun _ _ => (0, "", "")))
           (Params (Some ["/dev/sda1"]) "" absent false false)).
  right. left. reflexivity.
Defined.

(** ** The inventory of a plain listing *)


(** When every line of the listing has at least four fields and no name
    starts with [/dev/dm-], [parse_pvs] runs no command and returns an
    inventory in which a name is bound to the group and sizes of the last line
    that carries it, and in which no other name is bound. *)
Theorem plain_listing_last_line_wins (h : Host) (data : string) (log : list event) :
  Forall plain_line (PyStr.splitlines data) ->
  exists inv,
    parse_pvs h data log = (inr inv, log)
    /\ forall k, inv !! k = last_info k (PyStr.splitlines data).
Proof.
  intros Hall. destruct (parse_loop_plain h _ Hall ∅ log) as (inv & E & Hk).
  exists inv. split; [exact E|]. intros k. rewrite Hk.
  destruct (last_info k _); [reflexivity | apply lookup_empty].
Qed.

Lemma plain_listing_witness :
  exists inv,
    parse_pvs (Demo.host Demo.listing 0)
      ("/dev/sda1;vg0;100B;0B" +:+ Demo.nl +:+ " /dev/sda1;;100B;100B" +:+ Demo.nl) []
    = (inr inv, [])
    /\ forall k, inv !! k
                 = last_info k ["/dev/sda1;vg0;100B;0B"; " /dev/sda1;;100B;100B"].
Proof.
  apply (plain_listing_last_line_wins (Demo.host Demo.listing 0)
           ("/dev/sda1;vg0;100B;0B" +:+ Demo.nl +:+ " /dev/sda1;;100B;100B" +:+ Demo.nl) []).
  vm_compute PyStr.splitlines.
  constructor; [|constructor; [|constructor]].
  - exists "/dev/sda1", (PvInfo "vg0" "100B" "0B"). split; reflexivity.
  - exists "/dev/sda1", (PvInfo "" "100B" "100B"). split; reflexivity.
Defined.

(** ** Padding of the listing *)

Lemma blank_cons c s : blank (String c s) -> PyStr.isspace c = true /\ blank s.
Proof.
  unfold blank. simpl. destruct (PyStr.isspace c); [auto | discriminate].
Qed.

Lemma lstrip_blank_app ws s : blank ws -> PyStr.lstrip (ws +:+ s) = PyStr.lstrip s.
Proof.
  induction ws as [|c ws IH]; intros Hb; [reflexivity|].
  apply blank_cons in Hb as [Hc Hb]. simpl. rewrite Hc. apply IH. exact Hb.
Qed.

Lemma rstrip_blank ws : blank ws -> PyStr.rstrip ws = "".
Proof.
  induction ws as [|c ws IH]; intros Hb; [reflexivity|].
  apply blank_cons in Hb as [Hc Hb]. simpl. rewrite (IH Hb), Hc. reflexivity.
Qed.

Lemma rstrip_app_blank s ws : blank ws -> PyStr.rstrip (s +:+ ws) = PyStr.rstrip s.
Proof.
  intros Hb. induction s as [|c s IH]; simpl.
  - apply rstrip_blank. exact Hb.
  - rewrite IH. reflexivity.
Qed.

Lemma lstrip_app s ws :
  PyStr.lstrip (s +:+ ws)
  = if PyStr.is_empty (PyStr.lstrip s) then PyStr.lstrip ws else PyStr.lstrip s +:+ ws.
Proof.
  induction s as [|c s IH]; simpl; [reflexivity|].
  destruct (PyStr.isspace c); [exact IH | reflexivity].
Qed.

Lemma strip_padding ws1 ws2 line :
  blank ws1 -> blank ws2 -> PyStr.strip (ws1 +:+ line +:+ ws2) = PyStr.strip line.
Proof.
  intros H1 H2. unfold PyStr.strip. rewrite (lstrip_blank_app _ _ H1), lstrip_app.
  destruct (PyStr.lstrip line) as [|c s] eqn:E; simpl PyStr.is_empty; cbn iota.
  - rewrite H2. reflexivity.
  - apply rstrip_app_blank. exact H2.
Qed.

(** Whitespace before and after a line of the listing does not count: the
    padded line is parsed as the line itself. *)
Theorem parse_line_ignores_padding
    (h : Host) (ws1 ws2 line : string) (inv : gmap string pv_info) (log : list event) :
  blank ws1 -> blank ws2 ->
  parse_line h (ws1 +:+ line +:+ ws2) inv log = parse_line h line inv log.
Proof.
  intros H1 H2. unfold parse_line. rewrite (strip_padding _ _ _ H1 H2). reflexivity.
Qed.

Lemma parse_line_ignores_padding_witness :
  parse_line (Demo.host Demo.listing 0)
    ("  " +:+ "/dev/sda1;;100B;100B" +:+ String "009" " ") ∅ []
  = parse_line (Demo.host Demo.listing 0) "/dev/sda1;;100B;100B" ∅ [].
Proof.
  apply (parse_line_ignores_padding (Demo.host Demo.listing 0)
           "  " (String "009" " ") "/dev/sda1;;100B;100B" ∅ []); reflexivity.
Defined.

(** ** Any failing command *)

Lemma ff_ret {A : Type} (a : A) : fail_fast (mret a).
Proof. intros log. exists []. split; [symmetry; apply app_nil_r | constructor]. Qed.

Lemma ff_stop {A : Type} (o : outcome) : fail_fast (@stop A o).
Proof.
  intros log. exists []. split; [symmetry; apply app_nil_r | left; constructor].
Qed.

Lemma ff_bind {A B : Type} (m : Run A) (k : A -> Run B) :
  fail_fast m -> (forall a, fail_fast (k a)) -> fail_fast (m ≫= k).
Proof.
  intros Hm Hk log. rewrite bind_unfold. destruct (Hm log) as (ext & E & H).
  destruct (m log) as [[o|a] log']; simpl in E, H; subst log'.
  - exists ext. split; [reflexivity | exact H].
  - destruct (Hk a (log ++ ext)) as (ext' & E' & H').
    exists (ext ++ ext'). rewrite E', app_assoc. split; [reflexivity|].
    destruct (fst (k a (log ++ ext))) as [o|b].
    + destruct H' as [H'|(x & c & rc & out & err & -> & Hx & Hrc & ->)].
      * left. apply Forall_app; split; assumption.
      * right. exists (ext ++ x), c, rc, out, err. rewrite app_assoc.
        repeat split; try assumption. apply Forall_app; split; assumption.
    + apply Forall_app; split; assumption.
Qed.

Lemma ff_for_each {A S : Type} (body : A -> S -> Run S) l :
  (forall a s, fail_fast (body a s)) -> forall s, fail_fast (for_each body l s).
Proof.
  intros Hb. induction l as [|a l IH]; intros s; simpl.
  - apply ff_ret.
  - apply ff_bind; [apply Hb | apply IH].
Qed.

Section FailFast.

Variable h : Host.

(** Run a command; go on if it exited 0, else fail with its message. *)
Lemma ff_run {A : Type} (c : command) (k : response -> Run A) :
  (forall r, r.1.1 = 0 -> fail_fast (k r)) ->
  (forall r log, r.1.1 <> 0 ->
     k r log = (inl (Failed (failure_msg c) (Some r.1.1) (Some r.2)), log)) ->
  fail_fast (run_cmd h c ≫= k).
Proof.
  intros Hok Hko log. run_simpl.
  set (r := run_command h (history log) (render c)).
  destruct (Z.eq_dec r.1.1 0) as [Hz|Hnz].
  - destruct (Hok r Hz (log ++ [(c, r)])) as (ext & E & H).
    exists ((c, r) :: ext). rewrite E, <- app_assoc. split; [reflexivity|].
    destruct (fst (k r (log ++ [(c, r)]))) as [o|a].
    + destruct H as [H|(x & c' & rc & out & err & -> & Hx & Hrc & ->)].
      * left. constructor; assumption.
      * right. exists ((c, r) :: x), c', rc, out, err.
        repeat split; try assumption. constructor; assumption.
    + constructor; assumption.
  - rewrite (Hko r _ Hnz). exists [(c, r)]. split; [reflexivity|]. right.
    destruct r as [[rc out] err]. exists [], c, rc, out, err.
    repeat split; [constructor | exact Hnz].
Qed.

Lemma ff_get_bin_path_required name : fail_fast (get_bin_path_required h name).
Proof.
  unfold get_bin_path_required. destruct (get_bin_path h name);
    [apply ff_ret | apply ff_stop].
Qed.

Lemma ff_find_mapper_device_name dm_device :
  fail_fast (find_mapper_device_name h dm_device).
Proof.
  unfold find_mapper_device_name.
  apply ff_bind; [apply ff_get_bin_path_required|]. intros cmd.
  apply ff_run.
  - intros [[rc out] err] Hz. simpl in Hz. subst rc. apply ff_ret.
  - intros [[rc out] err] log Hnz. simpl in Hnz. apply Z.eqb_neq in Hnz.
    rewrite Hnz. reflexivity.
Qed.

Lemma ff_index parts i : fail_fast (index parts i).
Proof. unfold index. destruct (parts !! i); [apply ff_ret | apply ff_stop]. Qed.

Lemma ff_parse_pvs data : fail_fast (parse_pvs h data).
Proof.
  unfold parse_pvs. apply ff_for_each. intros line inv. unfold parse_line.
  apply ff_bind; [apply ff_index|]. intros name.
  apply ff_bind.
  { destruct (PyStr.startswith dm_prefix name);
      [apply ff_find_mapper_device_name | apply ff_ret]. }
  intros name'.
  repeat (apply ff_bind; [apply ff_index|]; intros ?).
  apply ff_ret.
Qed.

Lemma ff_mutation (c : command) :
  is_mutating c = true ->
  fail_fast
    (run_cmd h c ≫= fun '(rc, _, err) =>
       if rc =? 0 then mret true else fail_json (failure_msg c) (Some rc) (Some err)).
Proof.
  intros Hc. apply ff_run.
  - intros [[rc out] err] Hz. simpl in Hz. subst rc. apply ff_ret.
  - intros [[rc out] err] log Hnz. simpl in Hnz. apply Z.eqb_neq in Hnz.
    rewrite Hnz. reflexivity.
Qed.

Lemma ff_reconcile p c1 c2 inv dev_list : fail_fast (reconcile h p c1 c2 inv dev_list).
Proof.
  unfold reconcile. apply ff_bind; [|intros; apply ff_stop].
  destruct (state p); apply ff_for_each; intros dev changed.
  - unfold present_step. destruct (inv !! dev); [apply ff_ret|].
    apply ff_bind; [destruct (check_mode p); [apply ff_stop | apply ff_ret]|]. intros _.
    apply (ff_mutation (Pvcreate c1 _ dev)). reflexivity.
  - unfold absent_step. destruct (inv !! dev) as [info|]; [|apply ff_ret].
    apply ff_bind; [destruct (check_mode p); [apply ff_stop | apply ff_ret]|]. intros _.
    destruct (force p); cbn [negb].
    + apply (ff_mutation (PvremoveForce c2 dev)). reflexivity.
    + destruct (_ && _); [|apply ff_stop].
      apply (ff_mutation (Pvremove c2 dev)). reflexivity.
Qed.

Lemma ff_main_run p : fail_fast (main_run h p).
Proof.
  unfold main_run.
  apply ff_bind.
  { intros log. exists []. rewrite requested_devices_eq.
    split; [symmetry; apply app_nil_r|].
    simpl. destruct (match pvs p with Some (dev :: devs) => _ | _ => _ end);
      [left|]; constructor. }
  intros dev_list. apply ff_bind.
  { unfold check_devices. destruct (state p); [|apply ff_ret].
    apply ff_for_each. intros d []. destruct (path_exists h d);
      [apply ff_ret | apply ff_stop]. }
  intros _. apply ff_bind; [|intros [[c1 c2] inv]; apply ff_reconcile].
  unfold read_inventory.
  repeat (apply ff_bind; [apply ff_get_bin_path_required|]; intros ?).
  apply ff_run.
  - intros [[rc out] err] Hz. simpl in Hz. subst rc. cbn [Z.eqb negb].
    apply ff_bind; [apply ff_parse_pvs | intros; apply ff_ret].
  - intros [[rc out] err] log Hnz. simpl in Hnz. apply Z.eqb_neq in Hnz.
    rewrite Hnz. reflexivity.
Qed.

End FailFast.

(** Whatever command of a run exits non-zero, the listing and the [dmsetup]
    lookups included, it is the last command of the run, and the run fails
    with the message for that command, its exit code and its error output;
    all commands before it exited 0. *)
Theorem any_command_failure_is_fatal
    (h : Host) (p : params) (t1 : list event) (c : command) (resp : response)
    (t2 : list event) :
  snd (main h p) = t1 ++ (c, resp) :: t2 ->
  resp.1.1 <> 0 ->
  t2 = []
  /\ fst (main h p) = Failed (failure_msg c) (Some resp.1.1) (Some resp.2)
  /\ Forall (fun e => e.2.1.1 = 0) t1.
Proof.
  intros E Hrc.
  destruct (ff_main_run h p []) as (ext & Eext & H).
  revert E. rewrite main_eq.
  destruct (main_run h p []) as [[o|[]] log]. cbn [fst snd] in *. subst log.
  intros E. cbn [app] in E. subst ext.
  assert (Hbad : ~ Forall (fun e : event => e.2.1.1 = 0) (t1 ++ (c, resp) :: t2)).
  { intros F. apply Forall_app in F as [_ F]. inversion F as [|? ? Hs _]; subst.
    apply Hrc, Hs. }
  destruct H as [H|(ext' & c' & rc & out & err & E & Hclean & Hrc' & ->)];
    [contradiction|].
  destruct t2 as [|x t2 _] using rev_ind.
  - apply app_inj_tail in E as [-> [= -> ->]]. repeat split. exact Hclean.
  - exfalso. rewrite app_comm_cons, app_assoc in E. apply app_inj_tail in E as [<- _].
    apply Hbad. apply Forall_app in Hclean as [H1 H2].
    apply Forall_app; split; [exact H1|].
    exfalso. inversion H2 as [|? ? Hs _]; subst. apply Hrc, Hs.
Qed.

Lemma any_command_failure_witness :
  [] = @nil event
  /\ fst (main (Build_Host (fun s => s) (fun _ => true) (fun name => Some name)
                  (fun hist _ => match hist with [] => (0, "/dev/dm-3;vg;1B;1B", "")
                                               | _ => (5, "", "no such device") end))
               (Params (Some ["/dev/sda1"]) "" present false false))
     = Failed msg_dmsetup_failed (Some 5) (Some "no such device")
  /\ Forall (fun e : event => e.2.1.1 = 0) [(Pvs "pvs", (0, "/dev/dm-3;vg;1B;1B", ""))].
Proof.
  apply (any_command_failure_is_fatal
           (Build_Host (fun s => s) (fun _ => true) (fun name => Some name)
              (fun hist _ => match hist with [] => (0, "/dev/dm-3;vg;1B;1B", "")
                                           | _ => (5, "", "no such device") end))
           (Params (Some ["/dev/sda1"]) "" present false false)
           [(Pvs "pvs", (0, "/dev/dm-3;vg;1B;1B", ""))]
           (Dmsetup "dmsetup" "/dev/dm-3") (5, "", "no such device") []).
  - vm_compute. reflexivity.
  - simpl. lia.
Defined.
